(** * Order lifecycle of the e-commerce order system

    A shallow embedding of [app/services/order_service.py],
    [app/background_jobs.py], [app/utils/timezone.py], the order models and
    schemas, and the status handler of [app/api/routes/orders.py], followed
    by the properties of the order lifecycle that hold (or fail) on them.

    The relational store is a finite map from the primary key to the row;
    an ORM object is the record of its column attributes, and a row holds
    the values the session flushed (the rounding of a [Numeric(10, 2)]
    column is not part of the model).  Exceptions are values of
    [Exception]; every service operation returns its outcome together with
    the committed store (a rollback returns the store it started from).

    What the code reads from its environment is an argument of the
    embedding: [clock] is the instant a call reads from the system clock,
    in microseconds UTC; [db_fails] tells whether the store fails at the
    commit; [concurrent] is what other sessions commit while a pass of
    the background job runs. *)

From Stdlib Require Import ZArith String Ascii List Lia QArith Qpower.
From stdpp Require Import base option gmap strings list fin_maps sorting pretty.

Local Open Scope Z_scope.
Local Open Scope string_scope.

(* naive_solver clears hypotheses by name; the names it misses are harmless *)
#[local] Set Warnings "-clear-no-such-hyp".

(** ** Python runtime *)

(** The exceptions the embedded code raises.  [HTTPException] carries the
    status code and the detail string. *)
Inductive Exception :=
| HTTPException (status_code : Z) (detail : string)
| ValueError (msg : string)
| PermissionError (msg : string)
| KeyError (key : string)
| NameError (name : string)
| InvalidRequestError (msg : string)
| IntegrityError
| StaleDataError
| OperationalError
| ValidationError (title : string).

Inductive result (A : Type) :=
| Ok (a : A)
| Raise (e : Exception).
Arguments Ok {A} a.
Arguments Raise {A} e.

(** The error monad, with stdpp's [x ← r; k] notation. *)
#[global] Instance result_ret : MRet result := fun A a => Ok a.
#[global] Instance result_bind : MBind result := fun A B k r =>
  match r with
  | Ok a => k a
  | Raise e => Raise e
  end.

Definition is_ok {A} (r : result A) : bool :=
  match r with Ok _ => true | Raise _ => false end.

(** [str.isspace] on the code points below 256: the ASCII controls 9-13 and
    28-31, the space, NEL (0x85) and the no-break space (0xA0). *)
Definition isspace (c : ascii) : bool :=
  let n := N_of_ascii c in
  ((9 <=? n) && (n <=? 13) || (28 <=? n) && (n <=? 32)
   || (n =? 133) || (n =? 160))%N.

Fixpoint lstrip (s : string) : string :=
  match s with
  | EmptyString => EmptyString
  | String c s' => if isspace c then lstrip s' else s
  end.

Fixpoint rstrip (s : string) : string :=
  match s with
  | EmptyString => EmptyString
  | String c s' =>
      match rstrip s' with
      | EmptyString => if isspace c then EmptyString else String c EmptyString
      | r => String c r
      end
  end.

(** [str.strip()] with no argument. *)
Definition strip (s : string) : string := rstrip (lstrip s).

(** [x or ''] for an optional string: [None] and the empty string are both
    falsy. *)
Definition or_empty (o : option string) : string :=
  match o with
  | Some s => s
  | None => EmptyString
  end.

(** Truthiness of an optional string ([if notes:]). *)
Definition truthy (o : option string) : bool :=
  match o with
  | Some (String _ _) => true
  | _ => false
  end.

Definition is_prefix (p s : string) : Prop := exists t, s = p ++ t.

(** *** decimal.Decimal

    A finite decimal is a coefficient and an exponent: [coef * 10 ^ expn].
    The operations below are the exact ones: Python rounds a result only
    when it needs more than the 28 significant digits of the default context,
    which no amount that fits a [Numeric(10, 2)] column comes near. *)
Record Decimal := mkDecimal { coef : Z; expn : Z }.

(** [Decimal('0.00')] *)
Definition Decimal_0_00 : Decimal := mkDecimal 0 (-2).

(** Coefficient of [d] once rescaled to the exponent [e <= expn d]. *)
Definition rescale (d : Decimal) (e : Z) : Z := coef d * 10 ^ (expn d - e).

(** [a + b] *)
Definition dec_add (a b : Decimal) : Decimal :=
  let e := Z.min (expn a) (expn b) in
  mkDecimal (rescale a e + rescale b e) e.

(** [d * n] for an [int] [n], which Python first converts to
    [Decimal(n)] (exponent 0). *)
Definition dec_mul_int (d : Decimal) (n : Z) : Decimal :=
  mkDecimal (coef d * n) (expn d + 0).

(** The number a decimal denotes. *)
Definition dec_value (d : Decimal) : Q := inject_Z (coef d) * (10 # 1) ^ expn d.

(** [a == b]: equality of the numbers, whatever the exponents. *)
Definition dec_eqb (a b : Decimal) : bool :=
  let e := Z.min (expn a) (expn b) in
  (rescale a e =? rescale b e)%Z.

(** *** float

    A finite double is a mantissa and a binary exponent:
    [mant * 2 ^ fexp], the mantissa below [2 ^ 53] in absolute value.
    Infinities are left out: no conversion below meets them under the
    largest double, about [1.8e308]. *)
Record float := mkFloat { mant : Z; fexp : Z }.

(** Division to the nearest integer, ties to the even one; [b] is
    positive. *)
Definition div_half_even (a b : Z) : Z :=
  let q := a / b in
  match (2 * (a mod b) ?= b)%Z with
  | Lt => q
  | Gt => q + 1
  | Eq => if Z.even q then q else q + 1
  end.

(** The fraction [num / den / 2 ^ e]. *)
Definition scale2 (num den e : Z) : Z * Z :=
  if (0 <=? e)%Z then (num, den * 2 ^ e) else (num * 2 ^ (- e), den).

(** The double nearest to [num / den] ([den] positive), ties to even: the
    exponent is the one that puts the mantissa in [2 ^ 52, 2 ^ 53), and is
    not below that of the subnormal numbers. *)
Definition nearest_double (num den : Z) : float :=
  if (num =? 0)%Z then mkFloat 0 0 else
  let e0 := Z.log2 (Z.abs num) - Z.log2 den - 52 in
  let '(n0, d0) := scale2 (Z.abs num) den e0 in
  let e := if (n0 <? 2 ^ 52 * d0)%Z then e0 - 1 else e0 in
  let e := Z.max e (-1074) in
  let '(n, d) := scale2 num den e in
  mkFloat (div_half_even n d) e.

(** [float(d)] for a [Decimal]: correctly rounded. *)
Definition to_float (d : Decimal) : float :=
  if (0 <=? expn d)%Z then nearest_double (coef d * 10 ^ expn d) 1
  else nearest_double (coef d) (10 ^ (- expn d)).

(** [Decimal("%.<scale>f" % x)]: the formatting rounds the exact value of
    the double to [scale] places, ties to even. *)
Definition to_decimal (scale : Z) (x : float) : Decimal :=
  let '(n, d) := scale2 (mant x * 10 ^ scale) 1 (- fexp x) in
  mkDecimal (div_half_even n d) (- scale).

(** *** datetime

    [wall] counts the microseconds of the wall-clock reading; [tzinfo] is
    the UTC offset in microseconds of an aware datetime and [None] for a
    naive one.  A [timedelta] is a number of microseconds. *)
Record datetime := mkDatetime { wall : Z; tzinfo : option Z }.

Definition seconds (n : Z) : Z := n * 1000000.
Definition minutes (n : Z) : Z := seconds (60 * n).

(** [pytz.timezone('Asia/Kolkata')]: UTC+05:30, the offset of the zone at
    every instant since 15 October 1945.  (Before, the zone had other
    offsets, +06:30 for most of 1942 to 1945; the model does not have
    them, see [modern].) *)
Definition IST : Z := seconds 19800.
Definition utc : Z := 0.

(** [datetime.now(tz)], [clock] being the instant read (microseconds UTC). *)
Definition datetime_now (tz clock : Z) : datetime :=
  mkDatetime (clock + tz) (Some tz).

(** [dt.replace(tzinfo=tz)] *)
Definition replace_tzinfo (dt : datetime) (tz : option Z) : datetime :=
  mkDatetime (wall dt) tz.

(** [dt.astimezone(tz)] on an aware datetime: same instant, other offset.
    (On a naive one Python assumes the system zone; the code never does
    that.) *)
Definition astimezone (dt : datetime) (tz : Z) : datetime :=
  mkDatetime (wall dt - default 0 (tzinfo dt) + tz) (Some tz).

(** [dt - delta] *)
Definition dt_minus (dt : datetime) (delta : Z) : datetime :=
  mkDatetime (wall dt - delta) (tzinfo dt).

(** [a - b] for two aware datetimes: the difference of the instants. *)
Definition dt_diff (a b : datetime) : Z :=
  (wall a - default 0 (tzinfo a)) - (wall b - default 0 (tzinfo b)).

(** [tz.localize(dt)] of pytz: only for a naive datetime. *)
Definition localize (tz : Z) (dt : datetime) : result datetime :=
  match tzinfo dt with
  | None => Ok (mkDatetime (wall dt) (Some tz))
  | Some _ => Raise (ValueError "Not naive datetime (tzinfo is already set)")
  end.

(** app/utils/timezone.py *)
Definition get_ist_now (clock : Z) : datetime := datetime_now IST clock.

Definition to_ist (dt : datetime) : datetime :=
  let dt :=
    match tzinfo dt with
    | None => replace_tzinfo dt (Some utc)   (* Assume UTC if no timezone info *)
    | Some _ => dt
    end in
  astimezone dt IST.

Definition exc_str (e : Exception) : string :=
  match e with
  | HTTPException _ d => d
  | ValueError m | PermissionError m | InvalidRequestError m => m
  | KeyError k => "'" ++ k ++ "'"
  | NameError n => "name '" ++ n ++ "' is not defined"
  | StaleDataError => "UPDATE statement on table 'orders' expected to update 1 row(s); 0 were matched."
  | IntegrityError => "NOT NULL constraint failed"
  | OperationalError => "database error"
  | ValidationError t => "validation error for " ++ t
  end.

(** ** app/models *)

Inductive OrderStatus :=
| PENDING | CONFIRMED | PROCESSING | SHIPPED | DELIVERED | CANCELLED | REFUNDED.

Inductive UserRole := ADMIN | VENDOR | CUSTOMER.

#[global] Instance OrderStatus_eq_dec : EqDecision OrderStatus.
Proof. solve_decision. Defined.
#[global] Instance UserRole_eq_dec : EqDecision UserRole.
Proof. solve_decision. Defined.
#[global] Instance Decimal_eq_dec : EqDecision Decimal.
Proof. solve_decision. Defined.
#[global] Instance datetime_eq_dec : EqDecision datetime.
Proof. solve_decision. Defined.

(** The value of an enum member ([OrderStatus.PENDING.value]). *)
Definition OrderStatus_value (s : OrderStatus) : string :=
  match s with
  | PENDING => "pending"
  | CONFIRMED => "confirmed"
  | PROCESSING => "processing"
  | SHIPPED => "shipped"
  | DELIVERED => "delivered"
  | CANCELLED => "cancelled"
  | REFUNDED => "refunded"
  end.

Definition UserRole_value (r : UserRole) : string :=
  match r with
  | ADMIN => "admin"
  | VENDOR => "vendor"
  | CUSTOMER => "customer"
  end.

(** [x in [a, b, ...]] *)
Definition py_in `{EqDecision A} (x : A) (l : list A) : bool :=
  bool_decide (x ∈ l).

(** The two types a key has in this program: the [str] a [String(36)]
    column gives back and the [int] of a primary key.  [==] between a
    [str] and an [int] is [False], whatever the text. *)
Inductive key :=
| key_str (s : string)
| key_int (n : Z).

Definition py_eq (a b : key) : bool :=
  match a, b with
  | key_str s, key_str t => bool_decide (s = t)
  | key_int m, key_int n => bool_decide (m = n)
  | _, _ => false
  end.

(** [str(n)] for an [int] *)
Definition str_int (n : Z) : string := pretty n.

Record User := mkUser { id : Z; role : UserRole; is_active : bool }.

Record OrderItem := mkOrderItem {
  order_id : Z;
  product_name : string;
  product_sku : option string;
  quantity : Z;
  unit_price : Decimal;
  total_price : Decimal;
  product_description : option string
}.

(** An [Order] object.  [customer_name] and [shipping_address] are
    [nullable=False] columns: the attribute may be assigned [None], and the
    flush then fails (see [flush_ok]).  [user_id] is a [String(36)] column
    to which [create_order] binds the integer [user.id]: the column holds
    the decimal text of the owner's key, and the record keeps the integer
    the text denotes (see [user_id_attr]). *)
Record Order := mkOrder {
  user_id : Z;
  customer_name : option string;
  customer_email : option string;
  customer_phone : option string;
  shipping_address : option string;
  status : OrderStatus;
  total_amount : Decimal;
  notes : option string;
  tracking_number : option string;
  items : list OrderItem;
  created_at : datetime;
  updated_at : datetime
}.

(** [order.user_id] as Python reads it: a [str]. *)
Definition user_id_attr (o : Order) : key := key_str (str_int (user_id o)).

#[global] Instance OrderItem_eq_dec : EqDecision OrderItem.
Proof. solve_decision. Defined.
#[global] Instance Order_eq_dec : EqDecision Order.
Proof. solve_decision. Defined.

Definition set_status (s : OrderStatus) (o : Order) : Order :=
  mkOrder (user_id o) (customer_name o) (customer_email o) (customer_phone o)
    (shipping_address o) s (total_amount o) (notes o) (tracking_number o)
    (items o) (created_at o) (updated_at o).

Definition set_notes (n : option string) (o : Order) : Order :=
  mkOrder (user_id o) (customer_name o) (customer_email o) (customer_phone o)
    (shipping_address o) (status o) (total_amount o) n (tracking_number o)
    (items o) (created_at o) (updated_at o).

Definition set_updated_at (t : datetime) (o : Order) : Order :=
  mkOrder (user_id o) (customer_name o) (customer_email o) (customer_phone o)
    (shipping_address o) (status o) (total_amount o) (notes o)
    (tracking_number o) (items o) (created_at o) t.

Definition set_customer_name (v : option string) (o : Order) : Order :=
  mkOrder (user_id o) v (customer_email o) (customer_phone o)
    (shipping_address o) (status o) (total_amount o) (notes o)
    (tracking_number o) (items o) (created_at o) (updated_at o).

Definition set_customer_phone (v : option string) (o : Order) : Order :=
  mkOrder (user_id o) (customer_name o) (customer_email o) v
    (shipping_address o) (status o) (total_amount o) (notes o)
    (tracking_number o) (items o) (created_at o) (updated_at o).

Definition set_shipping_address (v : option string) (o : Order) : Order :=
  mkOrder (user_id o) (customer_name o) (customer_email o) (customer_phone o)
    v (status o) (total_amount o) (notes o)
    (tracking_number o) (items o) (created_at o) (updated_at o).

(** [OrderItem.calculate_total_price] *)
Definition calculate_total_price (it : OrderItem) : Decimal :=
  dec_mul_int (unit_price it) (quantity it).

(** [sum(...)] starts from the [int] 0, that is [Decimal(0)]. *)
Definition py_sum (l : list Decimal) : Decimal :=
  fold_left dec_add l (mkDecimal 0 0).

(** [Order.calculate_total] *)
Definition calculate_total (o : Order) : Decimal :=
  py_sum (map total_price (items o)).

(** ** app/schemas/order.py *)

Module OrderItemCreate.
Record t := mk {
  product_name : string;
  product_sku : option string;
  quantity : Z;
  unit_price : Decimal;
  product_description : option string
}.
End OrderItemCreate.

Module OrderCreate.
Record t := mk {
  customer_name : string;
  customer_email : string;
  customer_phone : option string;
  shipping_address : string;
  notes : option string;
  items : list OrderItemCreate.t
}.
End OrderCreate.

(** [OrderUpdate]: every field is optional; the outer [option] records
    whether the request set the field at all ([exclude_unset]), the inner
    one is the value, which may be [null]. *)
Module OrderUpdate.
Record t := mk {
  customer_name : option (option string);
  customer_phone : option (option string);
  shipping_address : option (option string);
  notes : option (option string)
}.
End OrderUpdate.

(** The attribute names an [OrderUpdate] can carry. *)
Inductive UpdateField :=
| F_customer_name | F_customer_phone | F_shipping_address | F_notes.

(** [order_data.dict(exclude_unset=True)]: the fields that were set, in
    declaration order. *)
Definition dict_exclude_unset (p : OrderUpdate.t) : list (UpdateField * option string) :=
  let entry f v := match v with Some x => [(f, x)] | None => [] end in
  entry F_customer_name (OrderUpdate.customer_name p)
  ++ entry F_customer_phone (OrderUpdate.customer_phone p)
  ++ entry F_shipping_address (OrderUpdate.shipping_address p)
  ++ entry F_notes (OrderUpdate.notes p).

(** [setattr(order, field, value)] *)
Definition setattr (o : Order) (f : UpdateField) (v : option string) : Order :=
  match f with
  | F_customer_name => set_customer_name v o
  | F_customer_phone => set_customer_phone v o
  | F_shipping_address => set_shipping_address v o
  | F_notes => set_notes v o
  end.

(** ** The store *)

(** The [orders] table: primary key to row. *)
Abbreviation Store := (gmap Z Order).

(** How the default database (SQLite) keeps a [DateTime] column: the
    wall-clock fields, without the zone ("database stores naive datetime in
    IST", background_jobs.py). *)
Definition stored (dt : datetime) : datetime := replace_tzinfo dt None.

(** What a [Numeric(10, 2)] column gives back for the [Decimal] bound to
    it.  SQLite has no decimal type: SQLAlchemy binds [float(value)] and
    reads the column as [Decimal("%.2f" % value)]. *)
Definition Numeric_10_2 (d : Decimal) : Decimal := to_decimal 2 (to_float d).

(** An item as the [order_items] table gives it back. *)
Definition stored_item (it : OrderItem) : OrderItem :=
  mkOrderItem (order_id it) (product_name it) (product_sku it) (quantity it)
    (Numeric_10_2 (unit_price it)) (Numeric_10_2 (total_price it))
    (product_description it).

(** The [nullable=False] constraints a flush of an order checks. *)
Definition flush_ok (o : Order) : bool :=
  bool_decide (is_Some (customer_name o))
  && bool_decide (is_Some (customer_email o))
  && bool_decide (is_Some (shipping_address o)).

(** [db.commit()] of a request session whose only dirty object is the
    order [pk], loaded as [old] and now [new].  [db_fails] is the store's
    failure oracle.  An UPDATE is emitted only when an attribute changed,
    and it stamps [updated_at] ([onupdate=get_ist_now]). *)
Definition commit_order (clock : Z) (db_fails : bool) (pk : Z)
    (old new : Order) (st : Store) : result Store :=
  if db_fails then Raise OperationalError
  else if bool_decide (old = new) then Ok st
  else if negb (flush_ok new) then Raise IntegrityError
  else Ok (<[pk := set_updated_at (stored (get_ist_now clock)) new]> st).

(** [query.filter(p)] on a query that selects at most one row, and
    [query.first()] being the row itself. *)
Definition query_filter (p : Order -> bool) (q : option Order) : option Order :=
  match q with
  | Some o => if p o then Some o else None
  | None => None
  end.

(** The key SQLite gives the next row of an [INTEGER PRIMARY KEY] table:
    one more than the largest key. *)
Definition next_id (st : Store) : Z :=
  1 + map_fold (fun k _ acc => Z.max k acc) 0 st.

(** ** app/services/order_service.py *)

Section OrderService.

(** How an f-string renders an enum member: the member's value up to
    Python 3.10, the qualified member name from 3.11 on.  The service is
    embedded for either. *)
Variable format_status : OrderStatus -> string.
Variable format_role : UserRole -> string.

(** The body of the item loop of [create_order]: the items added so far and
    the running total. *)
Fixpoint create_items (pk : Z) (l : list OrderItemCreate.t)
    (added : list OrderItem) (total_amount : Decimal)
    : list OrderItem * Decimal :=
  match l with
  | [] => (added, total_amount)
  | item_data :: rest =>
      let item_total :=
        dec_mul_int (OrderItemCreate.unit_price item_data)
                    (OrderItemCreate.quantity item_data) in
      let order_item :=
        mkOrderItem pk
          (OrderItemCreate.product_name item_data)
          (OrderItemCreate.product_sku item_data)
          (OrderItemCreate.quantity item_data)
          (OrderItemCreate.unit_price item_data)
          item_total
          (OrderItemCreate.product_description item_data) in
      create_items pk rest (added ++ [order_item]) (dec_add total_amount item_total)
  end.

(** [create_order]: returns the new key with the order, and the store.

    The clock is read three times ([get_ist_now] is the default of
    [created_at] and of [updated_at], and the [onupdate] of the latter):
    at [clock] and [clock1] for the INSERT of the flush, and at [clock2]
    for the UPDATE the commit emits when [order.total_amount = total_amount]
    changed the attribute, that is when the total is not the 0.00 the
    INSERT wrote.  The commit expires the order, and [db.refresh] and the
    load of [order.items] read it back from the tables, the amounts
    through their [Numeric(10, 2)] columns. *)
Definition create_order (clock clock1 clock2 : Z) (db_fails : bool)
    (order_data : OrderCreate.t) (user : User) (st : Store)
    : result (Z * Order) * Store :=
  let created := stored (get_ist_now clock) in
  let inserted := stored (get_ist_now clock1) in
  let pk := next_id st in                             (* db.flush() *)
  let '(its, total) :=
    create_items pk (OrderCreate.items order_data) [] Decimal_0_00 in
  let updated :=
    if dec_eqb total Decimal_0_00 then inserted
    else stored (get_ist_now clock2) in
  let order :=
    mkOrder (id user)
      (Some (OrderCreate.customer_name order_data))
      (Some (OrderCreate.customer_email order_data))
      (OrderCreate.customer_phone order_data)
      (Some (OrderCreate.shipping_address order_data))
      PENDING (Numeric_10_2 total) (OrderCreate.notes order_data) None
      (map stored_item its) created updated in
  if db_fails then
    (Raise (HTTPException 500 "Failed to create order"), st)
  else (Ok (pk, order), <[pk := order]> st).

(** [get_order_by_id] *)
Definition get_order_by_id (order_id : Z) (user : User) (st : Store)
    : result (option Order) :=
  let query := st !! order_id in
  let query :=
    if bool_decide (role user = CUSTOMER)
    (* in SQL: the integer is compared as text with the TEXT column *)
    then query_filter (fun o => bool_decide (user_id o = id user)) query
    else query in
  let order := query in
  if bool_decide (order = None) && bool_decide (role user = CUSTOMER) then
    let exists_ := st !! order_id in
    if bool_decide (is_Some exists_)
    then Raise (HTTPException 403 "Access denied")
    else Ok order
  else Ok order.

(** [update_order] *)
Definition update_order (clock : Z) (db_fails : bool) (order_id : Z)
    (order_data : OrderUpdate.t) (user : User) (st : Store)
    : result Order * Store :=
  match get_order_by_id order_id user st with
  | Raise e => (Raise e, st)
  | Ok None => (Raise (HTTPException 404 "Order not found"), st)
  | Ok (Some order) =>
      if bool_decide (role user = CUSTOMER)
         && negb (py_eq (user_id_attr order) (key_int (id user))) then
        (Raise (HTTPException 403 "Access denied"), st)
      else if bool_decide (role user = CUSTOMER)
              && negb (bool_decide (status order = PENDING)) then
        (Raise (HTTPException 400 "Can only update pending orders"), st)
      else
        let update_data := dict_exclude_unset order_data in
        let order' :=
          fold_left (fun o '(field, value) => setattr o field value)
                    update_data order in
        match commit_order clock db_fails order_id order order' st with
        | Ok st' =>
            match st' !! order_id with                 (* db.refresh(order) *)
            | Some o => (Ok o, st')
            | None => (Raise (HTTPException 500 "Failed to update order"), st')
            end
        | Raise _ =>
            (Raise (HTTPException 500 "Failed to update order"), st)
        end
  end.

(** [_is_valid_status_transition] *)
Definition valid_transitions (current_status : OrderStatus) : list OrderStatus :=
  match current_status with
  | PENDING => [PROCESSING; CONFIRMED; CANCELLED]
  | CONFIRMED => [PROCESSING; CANCELLED]
  | PROCESSING => [SHIPPED; CANCELLED]
  | SHIPPED => [DELIVERED]
  | DELIVERED => [REFUNDED]
  | CANCELLED => []   (* Terminal state *)
  | REFUNDED => []    (* Terminal state *)
  end.

Definition _is_valid_status_transition (current_status new_status : OrderStatus)
    : bool :=
  py_in new_status (valid_transitions current_status).

(** The annotation a status change appends:
    [f"{order.notes or ''}\n[{new_status}] {notes}".strip()]. *)
Definition newline : string := String (ascii_of_N 10) EmptyString.

Definition annotate (old : option string) (tag text : string) : string :=
  strip (or_empty old ++ newline ++ "[" ++ tag ++ "] " ++ text).

Definition invalid_transition_detail (from to : OrderStatus) : string :=
  "Invalid status transition from " ++ format_status from
  ++ " to " ++ format_status to.

(** [update_order_status] *)
Definition update_order_status (clock : Z) (db_fails : bool) (order_id : Z)
    (new_status : OrderStatus) (notes_ : option string) (current_user : User)
    (bypass_permission_check : bool) (st : Store) : result Order * Store :=
  match get_order_by_id order_id current_user st with
  | Raise e => (Raise e, st)
  | Ok None => (Raise (HTTPException 404 "Order not found"), st)
  | Ok (Some order) =>
      let permission : result unit :=
        if negb bypass_permission_check then
          if bool_decide (role current_user = CUSTOMER) then
            if negb (py_eq (user_id_attr order) (key_int (id current_user))) then
              Raise (HTTPException 403 "You can only update your own orders")
            else if negb (bool_decide (status order = PENDING)
                          && bool_decide (new_status = PROCESSING)) then
              Raise (HTTPException 403
                "Customers can only auto-update pending orders to processing")
            else Ok ()
          else if negb (py_in (role current_user) [VENDOR; ADMIN]) then
            Raise (HTTPException 403
              "Only vendors and admins can update order status")
          else Ok ()
        else Ok () in
      match permission with
      | Raise e => (Raise e, st)
      | Ok _ =>
          if negb (_is_valid_status_transition (status order) new_status) then
            (Raise (HTTPException 400
               (invalid_transition_detail (status order) new_status)), st)
          else
            let order' := set_status new_status order in
            let order' :=
              if truthy notes_ then
                set_notes (Some (annotate (notes order')
                                   (format_status new_status)
                                   (or_empty notes_))) order'
              else order' in
            match commit_order clock db_fails order_id order order' st with
            | Ok st' =>
                match st' !! order_id with
                | Some o => (Ok o, st')
                | None =>
                    (Raise (HTTPException 500 "Failed to update order status"), st')
                end
            | Raise _ =>
                (Raise (HTTPException 500 "Failed to update order status"), st)
            end
      end
  end.

(** [cancel_order] *)
Definition cancel_order (clock : Z) (db_fails : bool) (order_id : Z)
    (user : User) (st : Store) : result Order * Store :=
  match st !! order_id with
  | None => (Raise (ValueError "Order not found"), st)
  | Some order =>
      if py_in (status order) [DELIVERED; CANCELLED] then
        (Raise (ValueError "Order cannot be cancelled"), st)
      else
        let permission : result unit :=
          if bool_decide (role user = CUSTOMER) then
            if negb (bool_decide (user_id order = id user)) then
              Raise (PermissionError "You can only cancel your own orders")
            else if negb (bool_decide (status order = PENDING)) then
              Raise (PermissionError
                "You can only cancel orders that are in PENDING status")
            else
              let current_time := get_ist_now clock in
              let order_created_ist := to_ist (created_at order) in
              let time_diff := dt_diff current_time order_created_ist in
              if (seconds 300 <? time_diff)%Z then
                Raise (PermissionError
                  "You can only cancel orders within 5 minutes of creation")
              else Ok ()
          else if negb (py_in (role user) [VENDOR; ADMIN]) then
            Raise (PermissionError
              "Only customers, vendors, and admins can cancel orders")
          else Ok () in
        match permission with
        | Raise e => (Raise e, st)
        | Ok _ =>
            let order' := set_status CANCELLED order in
            let order' :=
              set_notes (Some (annotate (notes order') "CANCELLED"
                                 ("Order cancelled by " ++ format_role (role user))))
                        order' in
            match commit_order clock db_fails order_id order order' st with
            | Ok st' =>
                match st' !! order_id with
                | Some o => (Ok o, st')
                | None => (Raise (ValueError "Failed to cancel order: "), st')
                end
            | Raise e =>
                (Raise (ValueError ("Failed to cancel order: " ++ exc_str e)), st)
            end
        end
  end.

End OrderService.

(** ** app/api/routes/orders.py: the status handler *)

Module routes.

(** The names bound at module level of [app/api/routes/orders.py]: its
    imports, then its own assignments and handlers. *)
Definition module_globals : list string :=
  [ "List"; "Optional";
    "APIRouter"; "Depends"; "Query"; "status"; "HTTPException";
    "Session";
    "get_db"; "get_current_active_user"; "require_vendor_or_admin";
    "get_logger";
    "User";
    "OrderStatus";
    "OrderCreate"; "OrderResponse"; "OrderUpdate"; "OrderStatusUpdate";
    "PaginationParams"; "PaginatedResponse";
    "OrderService";
    "logger"; "router";
    "create_order"; "get_my_orders"; "get_all_orders"; "get_order";
    "update_order"; "update_order_status"; "cancel_order_options";
    "cancel_order" ].

(** Evaluating a name that is not local to the handler: found among the
    module's globals, or [NameError] (no builtin has any of the names the
    handler uses). *)
Definition load_global (name : string) : result unit :=
  if bool_decide (name ∈ module_globals) then Ok ()
  else Raise (NameError name).

(** A JSON value of the request body. *)
Inductive JSON :=
| JNull
| JBool (b : bool)
| JNumber (n : Z)
| JString (s : string)
| JOther.

Definition json_repr (v : JSON) : string :=
  match v with
  | JNull => "None"
  | JBool true => "True"
  | JBool false => "False"
  | JNumber _ => "<number>"
  | JString s => "'" ++ s ++ "'"
  | JOther => "<value>"
  end.

(** [OrderStatus(value)]: the member with that value, or [ValueError]. *)
Definition OrderStatus_of (v : JSON) : result OrderStatus :=
  match v with
  | JString s =>
      match
        find (fun m => bool_decide (OrderStatus_value m = s))
          [PENDING; CONFIRMED; PROCESSING; SHIPPED; DELIVERED; CANCELLED;
           REFUNDED]
      with
      | Some m => Ok m
      | None => Raise (ValueError (json_repr v ++ " is not a valid OrderStatus"))
      end
  | _ => Raise (ValueError (json_repr v ++ " is not a valid OrderStatus"))
  end.

(** [d[key]] *)
Definition getitem (d : gmap string JSON) (key : string) : result JSON :=
  match d !! key with
  | Some v => Ok v
  | None => Raise (KeyError key)
  end.

(** [status_update.get("notes")], as the service reads it. *)
Definition get_notes (d : gmap string JSON) : option string :=
  match d !! "notes" with
  | Some (JString s) => Some s
  | _ => None
  end.

Section Handler.
Variable format_status : OrderStatus -> string.

(** The [try] block of the handler [update_order_status]. *)
Definition update_order_status_try (clock : Z) (db_fails : bool)
    (order_id : Z) (status_update : gmap string JSON) (current_user : User)
    (st : Store) : result Order * Store :=
  match v ← getitem status_update "status"; OrderStatus_of v with
  | Raise e => (Raise e, st)
  | Ok new_status =>
      (* order = db.query(Order).filter(Order.id == order_id).first() *)
      match load_global "Order" with
      | Raise e => (Raise e, st)
      | Ok _ =>
          match st !! order_id with
          | None => (Raise (HTTPException 404 "Order not found"), st)
          | Some order =>
              if bool_decide (status order = PENDING)
                 && bool_decide (new_status = PROCESSING) then
                update_order_status format_status clock db_fails order_id
                  new_status (get_notes status_update) current_user true st
              else
                update_order_status format_status clock db_fails order_id
                  new_status (get_notes status_update) current_user false st
          end
      end
  end.

(** The handler with its [except] clauses, tried in order. *)
Definition update_order_status (clock : Z) (db_fails : bool)
    (order_id : Z) (status_update : gmap string JSON) (current_user : User)
    (st : Store) : result Order * Store :=
  match update_order_status_try clock db_fails order_id status_update
          current_user st with
  | (Ok o, st') => (Ok o, st')
  | (Raise (ValueError m), st') => (Raise (HTTPException 400 m), st')
  | (Raise (PermissionError m), st') => (Raise (HTTPException 403 m), st')
  | (Raise _, st') => (Raise (HTTPException 500 "Internal server error"), st')
  end.
End Handler.

End routes.

(** ** app/background_jobs.py *)

Section BackgroundJobManager.

(** The transactions other sessions commit while a pass runs:
    [concurrent pk st] is the store once those have committed that come
    in before the pass re-reads the row [pk]. *)
Variable concurrent : Z -> Store -> Store.

(** [db.query(Order).filter(Order.status == PENDING,
                            Order.created_at <= cutoff_time_naive).all()] *)
Definition query_pending (cutoff_time_naive : datetime) (st : Store)
    : list (Z * Order) :=
  List.filter
    (fun row => bool_decide (status (snd row) = PENDING)
                && (wall (created_at (snd row)) <=? wall cutoff_time_naive)%Z)
    (map_to_list st).

(** [db.refresh(order)] *)
Definition refresh (pk : Z) (st : Store) : result Order :=
  match st !! pk with
  | Some o => Ok o
  | None => Raise (InvalidRequestError "Could not refresh instance")
  end.

(** The candidate loop of both passes.  [double_check] is set for the
    periodic pass, which re-validates the age.  The loop assigns to the
    session's objects only: [dirty] lists the keys it assigned to, the
    store it returns is the one the concurrent transactions left. *)
Fixpoint candidate_loop (double_check : bool) (current_time_ist : datetime)
    (pending_orders : list (Z * Order)) (st : Store)
    (dirty : list Z) (updated_count : Z) : Store * result (list Z * Z) :=
  match pending_orders with
  | [] => (st, Ok (dirty, updated_count))
  | (pk, _) :: rest =>
      let st := concurrent pk st in
      match refresh pk st with
      | Raise e => (st, Raise e)
      | Ok order =>
          if negb (bool_decide (status order = PENDING)) then
            candidate_loop double_check current_time_ist rest st dirty updated_count
          else
            match localize IST (created_at order) with
            | Raise e => (st, Raise e)
            | Ok order_created_ist =>
                let age := dt_diff current_time_ist order_created_ist in
                if double_check && (age <=? minutes 5)%Z then
                  candidate_loop double_check current_time_ist rest st
                    dirty updated_count
                else
                  candidate_loop double_check current_time_ist rest st
                    (dirty ++ [pk]) (updated_count + 1)
            end
      end
  end.

(** The flush of [db.commit()]: one UPDATE of [status] and [updated_at]
    per object the loop assigned to. *)
Fixpoint flush_promotions (now_naive : datetime) (dirty : list Z) (st : Store)
    : result Store :=
  match dirty with
  | [] => Ok st
  | pk :: rest =>
      match st !! pk with
      | Some row =>
          flush_promotions now_naive rest
            (<[pk := set_updated_at now_naive (set_status PROCESSING row)]> st)
      | None => Raise StaleDataError
      end
  end.

Definition commit_promotions (db_fails : bool) (now_naive : datetime)
    (dirty : list Z) (st : Store) : result Store :=
  if db_fails then Raise OperationalError
  else flush_promotions now_naive dirty st.

(** [_process_pending_orders]: every exception is caught and logged, so
    the pass only yields the store. *)
Definition _process_pending_orders (clock : Z) (db_fails : bool) (st : Store)
    : Store :=
  let current_time_ist := datetime_now IST clock in
  let cutoff_time_ist := dt_minus current_time_ist (minutes 5) in
  let cutoff_time_naive := replace_tzinfo cutoff_time_ist None in
  let pending_orders := query_pending cutoff_time_naive st in
  match candidate_loop true current_time_ist pending_orders st [] 0 with
  | (st1, Raise _) => st1
  | (st1, Ok (dirty, updated_count)) =>
      if (0 <? updated_count)%Z then
        match commit_promotions db_fails
                (replace_tzinfo current_time_ist None) dirty st1 with
        | Ok st2 => st2
        | Raise _ => st1
        end
      else st1
  end.

(** [update_all_pending_orders_now]; [clock0] and [clock1] are its two
    readings of the clock. *)
Definition update_all_pending_orders_now (clock0 clock1 : Z) (db_fails : bool)
    (st : Store) : result Z * Store :=
  let cutoff_time_ist := dt_minus (datetime_now IST clock0) (minutes 5) in
  let cutoff_time_naive := replace_tzinfo cutoff_time_ist None in
  let pending_orders := query_pending cutoff_time_naive st in
  let current_time_ist := datetime_now IST clock1 in
  match candidate_loop false current_time_ist pending_orders st [] 0 with
  | (st1, Raise e) => (Raise e, st1)
  | (st1, Ok (dirty, updated_count)) =>
      if (0 <? updated_count)%Z then
        match commit_promotions db_fails
                (replace_tzinfo current_time_ist None) dirty st1 with
        | Ok st2 => (Ok updated_count, st2)
        | Raise e => (Raise e, st1)
        end
      else (Ok updated_count, st1)
  end.

End BackgroundJobManager.

(** A pass that runs alone. *)
Definition quiet : Z -> Store -> Store := fun _ st => st.

(** ** The rest of the order service *)

(** The rows of a query are pairs of the key and the row. *)
Definition newer_first (a b : Z * Order) : Prop :=
  (wall (created_at (snd b)) <= wall (created_at (snd a)))%Z.

#[global] Instance newer_first_dec a b : Decision (newer_first a b).
Proof. unfold newer_first. apply _. Defined.

(** The role filter [get_orders] and [get_order_count] share: a customer's
    query is narrowed to the customer's own orders. *)
Definition visible_to (user : User) (row : Z * Order) : Prop :=
  role user = CUSTOMER -> user_id (snd row) = id user.

#[global] Instance visible_to_dec user row : Decision (visible_to user row).
Proof. unfold visible_to. apply _. Defined.

(** The status filter; [if status:] holds for every member, whose value is
    a non-empty string. *)
Definition has_status (status_ : option OrderStatus) (row : Z * Order) : Prop :=
  match status_ with
  | Some s => status (snd row) = s
  | None => True
  end.

#[global] Instance has_status_dec s row : Decision (has_status s row).
Proof. unfold has_status. destruct s; apply _. Defined.

(** [get_orders]: [order_by(created_at.desc()).offset(skip).limit(limit)].
    The order of rows created at the same instant is the store's choice;
    here it is that of the merge sort.  SQLite reads a negative OFFSET as
    0 and a negative LIMIT as no limit. *)
Definition get_orders (user : User) (skip limit : Z)
    (status_ : option OrderStatus) (st : Store) : list (Z * Order) :=
  let query := map_to_list st in
  let query := filter (visible_to user) query in
  let query := filter (has_status status_) query in
  let rows := drop (Z.to_nat skip) (merge_sort newer_first query) in
  if (limit <? 0)%Z then rows else take (Z.to_nat limit) rows.

(** [get_order_count] *)
Definition get_order_count (user : User) (status_ : option OrderStatus)
    (st : Store) : Z :=
  let query := map_to_list st in
  let query := filter (visible_to user) query in
  let query := filter (has_status status_) query in
  Z.of_nat (length query).

(** [Order.items_count] *)
Definition items_count (o : Order) : Z :=
  fold_right (fun it acc => quantity it + acc)%Z 0%Z (items o).

(** app/utils/timezone.py, [ist_to_utc] *)
Definition ist_to_utc (dt : datetime) : datetime :=
  let dt :=
    match tzinfo dt with
    | None => mkDatetime (wall dt) (Some IST)   (* Assume IST if no timezone info *)
    | Some _ => dt
    end in
  astimezone dt utc.

(** ** app/schemas/common.py *)

Module PaginationParams.
Record t := mk { page : Z; size : Z }.

Definition offset (p : t) : Z := (page p - 1) * size p.

(** The constraints of the schema: [page >= 1] and [1 <= size <= 100]. *)
Definition valid (p : t) : Prop := 1 <= page p ∧ 1 <= size p <= 100.
End PaginationParams.

Module PaginatedResponse.
Record t (T : Type) := mk {
  items : list T;
  total : Z;
  page : Z;
  size : Z;
  pages : Z
}.
Arguments mk {T} _ _ _ _ _.
Arguments items {T} _.
Arguments total {T} _.
Arguments page {T} _.
Arguments size {T} _.
Arguments pages {T} _.

(** [create]; [//] is the floor division. *)
Definition create {T} (items : list T) (total : Z) (pagination : PaginationParams.t)
    : t T :=
  let pages :=
    (total + PaginationParams.size pagination - 1)
    / PaginationParams.size pagination in
  mk items total (PaginationParams.page pagination)
     (PaginationParams.size pagination) pages.
End PaginatedResponse.

(** ** app/api/dependencies.py *)

Module dependencies.
Definition get_current_active_user (current_user : User) : result User :=
  if negb (is_active current_user)
  then Raise (HTTPException 400 "Inactive user")
  else Ok current_user.

Definition require_admin (current_user : User) : result User :=
  current_user ← get_current_active_user current_user;
  if negb (bool_decide (role current_user = ADMIN))
  then Raise (HTTPException 403 "Insufficient permissions")
  else Ok current_user.

Definition require_vendor_or_admin (current_user : User) : result User :=
  current_user ← get_current_active_user current_user;
  if negb (bool_decide (role current_user = VENDOR)
           || bool_decide (role current_user = ADMIN))
  then Raise (HTTPException 403 "Insufficient permissions")
  else Ok current_user.
End dependencies.

(** ** app/schemas/order.py: the response models

    [from_orm] copies the attributes of a row and validates them against
    the constraints of the fields, so a response is modelled by the row
    it was built from.  The constraints are those of the request models
    the response models inherit from; a row written through
    [OrderUpdate], which has no [min_length], or read back through a
    [Numeric(10, 2)] column need not meet them.  The lengths count
    characters.  The fields left out here take any value of their type
    ([user_id] and [order_id] are read from the text of an integer). *)

Module OrderItemResponse.
Definition validate (it : OrderItem) : bool :=
  (1 <=? String.length (product_name it))%nat
  && (String.length (product_name it) <=? 255)%nat
  && match product_sku it with
     | Some sku => (String.length sku <=? 100)%nat
     | None => true
     end
  && (1 <=? quantity it)%Z
  && (0 <=? coef (unit_price it))%Z.
End OrderItemResponse.

Module OrderResponse.
Definition validate (o : Order) : bool :=
  match customer_name o with
  | Some name =>
      (1 <=? String.length name)%nat && (String.length name <=? 255)%nat
  | None => false
  end
  && bool_decide (is_Some (customer_email o))
  && match customer_phone o with
     | Some phone => (String.length phone <=? 20)%nat
     | None => true
     end
  && match shipping_address o with
     | Some address => (1 <=? String.length address)%nat
     | None => false
     end
  && forallb OrderItemResponse.validate (items o).

(** [OrderResponse.from_orm(order)] *)
Definition from_orm (o : Order) : result Order :=
  if validate o then Ok o else Raise (ValidationError "OrderResponse").

(** [[OrderResponse.from_orm(order) for order in orders]], the orders with
    their keys. *)
Fixpoint from_orm_each (orders : list (Z * Order)) : result (list (Z * Order)) :=
  match orders with
  | [] => Ok []
  | (pk, order) :: rest =>
      response ← from_orm order;
      responses ← from_orm_each rest;
      Ok ((pk, response) :: responses)
  end.
End OrderResponse.

(** ** app/api/routes/orders.py: the other handlers

    A handler receives the user the bearer token names; its dependencies
    run first.  An exception other than [HTTPException] that leaves a
    handler is answered with 500 by the framework. *)

Module orders_routes.

(** [get_my_orders] *)
Definition get_my_orders (pagination : PaginationParams.t)
    (status_filter : option OrderStatus) (user : User) (st : Store)
    : result (PaginatedResponse.t (Z * Order)) :=
  current_user ← dependencies.get_current_active_user user;
  let orders :=
    get_orders current_user (PaginationParams.offset pagination)
      (PaginationParams.size pagination) status_filter st in
  let total := get_order_count current_user status_filter st in
  order_responses ← OrderResponse.from_orm_each orders;
  Ok (PaginatedResponse.create order_responses total pagination).

(** [get_all_orders] *)
Definition get_all_orders (pagination : PaginationParams.t)
    (status_filter : option OrderStatus) (user : User) (st : Store)
    : result (PaginatedResponse.t (Z * Order)) :=
  current_user ← dependencies.require_vendor_or_admin user;
  let orders :=
    get_orders current_user (PaginationParams.offset pagination)
      (PaginationParams.size pagination) status_filter st in
  let total := get_order_count current_user status_filter st in
  order_responses ← OrderResponse.from_orm_each orders;
  Ok (PaginatedResponse.create order_responses total pagination).


Section Cancel.
Variable format_role : UserRole -> string.

(** [cancel_order], the handler, with its [except] clauses in order.
    [query_fails] is the failure oracle of the store for the SELECT that
    opens the service: that statement is outside the [try] of the service,
    so its exception is the one that reaches the handler as it is. *)
Definition cancel_order (clock : Z) (query_fails db_fails : bool)
    (order_id : Z) (user : User) (st : Store) : result Order * Store :=
  match dependencies.get_current_active_user user with
  | Raise e => (Raise e, st)
  | Ok current_user =>
      match
        if query_fails then (Raise OperationalError, st)
        else cancel_order format_role clock db_fails order_id current_user st
      with
      | (Ok cancelled_order, st') => (Ok cancelled_order, st')
      | (Raise (ValueError m), st') => (Raise (HTTPException 400 m), st')
      | (Raise (PermissionError m), st') => (Raise (HTTPException 403 m), st')
      | (Raise e, st') =>
          (Raise (HTTPException 500 ("Internal server error: " ++ exc_str e)), st')
      end
  end.
End Cancel.

End orders_routes.

(** ** Notions the statements use *)

(** The attributes no request of the service assigns. *)
Definition same_core (o o' : Order) : Prop :=
  user_id o' = user_id o
  ∧ total_amount o' = total_amount o
  ∧ items o' = items o
  ∧ customer_email o' = customer_email o
  ∧ tracking_number o' = tracking_number o
  ∧ created_at o' = created_at o.

(** [update_order] in one equation per outcome. *)
Definition patched (p : OrderUpdate.t) (o : Order) : Order :=
  fold_left (fun o '(field, value) => setattr o field value)
            (dict_exclude_unset p) o.

(** The object [update_order_status] hands to the commit. *)
Definition transitioned (format_status : OrderStatus -> string)
    (new_status : OrderStatus) (notes_ : option string) (o : Order) : Order :=
  let o' := set_status new_status o in
  if truthy notes_ then
    set_notes (Some (annotate (notes o') (format_status new_status)
                       (or_empty notes_))) o'
  else o'.

(** The object [cancel_order] hands to the commit. *)
Definition cancelled (format_role : UserRole -> string) (user : User)
    (o : Order) : Order :=
  let o' := set_status CANCELLED o in
  set_notes (Some (annotate (notes o') "CANCELLED"
                     ("Order cancelled by " ++ format_role (role user)))) o'.

(** What [cancel_order] compares with 300 seconds. *)
Definition time_diff (clock : Z) (o : Order) : Z :=
  dt_diff (get_ist_now clock) (to_ist (created_at o)).

(** The age of an order on the business clock: the IST reading now, less
    the IST reading the store holds for its creation. *)
Definition order_age (clock : Z) (o : Order) : Z :=
  wall (get_ist_now clock) - wall (created_at o).

(** The sum the specification writes: quantity times unit price, over the
    items, as a number. *)
Definition items_sum (its : list OrderItem) : Q :=
  fold_right (fun it acc => inject_Z (quantity it) * dec_value (unit_price it) + acc)%Q
             0%Q its.

Definition submitted_sum (l : list OrderItemCreate.t) : Q :=
  fold_right
    (fun d acc => inject_Z (OrderItemCreate.quantity d)
                  * dec_value (OrderItemCreate.unit_price d) + acc)%Q
    0%Q l.

(** The stored line total of an item is its unit price times its quantity. *)
Definition line_ok (it : OrderItem) : Prop :=
  total_price it = dec_mul_int (unit_price it) (quantity it).

(** The total of an order is that of its items, each with its line total. *)
Definition total_ok (o : Order) : Prop :=
  (dec_value (total_amount o) == items_sum (items o))%Q
  ∧ Forall line_ok (items o).

(** The item [create_order] builds from a submitted one. *)
Definition item_of (pk : Z) (d : OrderItemCreate.t) : OrderItem :=
  mkOrderItem pk (OrderItemCreate.product_name d) (OrderItemCreate.product_sku d)
    (OrderItemCreate.quantity d) (OrderItemCreate.unit_price d)
    (dec_mul_int (OrderItemCreate.unit_price d) (OrderItemCreate.quantity d))
    (OrderItemCreate.product_description d).

(** The amount of a decimal with at most two places, in hundredths. *)
Definition cents (d : Decimal) : Z := rescale d (-2).

(** What the request schema asks of an item ([quantity >= 1],
    [unit_price >= 0]), for a price written to the cent. *)
Definition priced_to_the_cent (d : OrderItemCreate.t) : Prop :=
  (1 <= OrderItemCreate.quantity d)%Z
  ∧ (0 <= coef (OrderItemCreate.unit_price d))%Z
  ∧ (-2 <= expn (OrderItemCreate.unit_price d))%Z.

(** The sum of the submitted lines, in hundredths. *)
Definition submitted_cents (l : list OrderItemCreate.t) : Z :=
  fold_right (fun d acc => cents (OrderItemCreate.unit_price d)
                           * OrderItemCreate.quantity d + acc)%Z 0%Z l.

(** What a promotion writes into a row. *)
Definition promoted (now_naive : datetime) (o : Order) : Order :=
  set_updated_at now_naive (set_status PROCESSING o).

(** The filter of the batch query. *)
Definition due (cutoff_time_naive : datetime) (o : Order) : bool :=
  bool_decide (status o = PENDING)
  && (wall (created_at o) <=? wall cutoff_time_naive)%Z.

Section Reread.

Variable concurrent : Z -> Store -> Store.

(** The store a pass reads [pk] from when it refreshes it: the one the
    concurrent transactions have made by then. *)
Fixpoint store_at_reread (pending_orders : list (Z * Order)) (st : Store)
    (pk : Z) : option Store :=
  match pending_orders with
  | [] => None
  | (k, _) :: rest =>
      let st' := concurrent k st in
      if bool_decide (k = pk) then Some st' else store_at_reread rest st' pk
  end.

End Reread.

(** ** Sample data *)

Definition alice : User := mkUser 1 CUSTOMER true.
Definition bob : User := mkUser 4 CUSTOMER true.
Definition vendor : User := mkUser 2 VENDOR true.
Definition admin : User := mkUser 3 ADMIN true.

(** An order of user [uid], stamped at the IST wall-clock reading
    [created], as the store returns it. *)
Definition sample_order (uid : Z) (s : OrderStatus) (n : option string)
    (created : Z) : Order :=
  mkOrder uid (Some "A. Customer") (Some "a@example.com") None
    (Some "1 Main Street") s (mkDecimal 1000 (-2)) n None []
    (mkDatetime created None) (mkDatetime created None).

Definition t0 : Z := seconds 1000000.

(** The instant at which an order stamped [t0] is [age] microseconds old. *)
Definition at_age (age : Z) : Z := t0 - IST + age.

Definition pending_store : Store := {[ 1 := sample_order 1 PENDING None t0 ]}.
Definition refunded_store : Store :=
  {[ 1 := sample_order 1 REFUNDED (Some "paid back") t0 ]}.

(** Two notebooks at 19.99 and one pen at 1.5: the stored total is 41.48. *)
Definition two_lines : OrderCreate.t :=
  OrderCreate.mk "A. Customer" "a@example.com" None "1 Main Street" None
    [ OrderItemCreate.mk "notebook" None 2 (mkDecimal 1999 (-2)) None;
      OrderItemCreate.mk "pen" (Some "P-1") 1 (mkDecimal 15 (-1)) None ].

(** Three units at half a cent. *)
Definition sub_cent : OrderCreate.t :=
  OrderCreate.mk "A. Customer" "a@example.com" None "1 Main Street" None
    [ OrderItemCreate.mk "washer" None 3 (mkDecimal 5 (-3)) None ].

(** Three pending orders older than five minutes, a pending one of two
    minutes and one already processing. *)
Definition five_orders : Store :=
  {[ 1 := sample_order 1 PENDING None t0;
     2 := sample_order 4 PENDING None (t0 + seconds 20);
     3 := sample_order 1 PENDING (Some "fragile") (t0 + seconds 40);
     4 := sample_order 4 PENDING None (t0 + minutes 8);
     5 := sample_order 1 PROCESSING None t0 ]}.

(** A vendor cancels the order 1 after the batch query and before the pass
    re-reads it; nothing else happens meanwhile. *)
Definition cancelled_meanwhile (clock : Z) : Z -> Store -> Store :=
  fun pk st =>
    if bool_decide (pk = 1)
    then snd (cancel_order UserRole_value clock false 1 vendor st)
    else st.

Definition gift_store : Store :=
  {[ 1 := sample_order 1 PENDING (Some "gift wrap") t0 ]}.

(** Two pending orders of ten minutes; a vendor cancels the order 2 once
    the pass has re-read it, before the pass re-reads the order 1. *)
Definition two_pending : Store :=
  {[ 1 := sample_order 1 PENDING None t0;
     2 := sample_order 4 PENDING None t0 ]}.

Definition cancelled_late (clock : Z) : Z -> Store -> Store :=
  fun pk st =>
    if bool_decide (pk = 1)
    then snd (cancel_order UserRole_value clock false 2 vendor st)
    else st.

(** A rank that every legal transition raises. *)
Definition status_rank (s : OrderStatus) : Z :=
  match s with
  | PENDING => 0
  | CONFIRMED => 1
  | PROCESSING => 2
  | SHIPPED => 3
  | DELIVERED => 4
  | REFUNDED => 5
  | CANCELLED => 5
  end.

(** An edge of the transition table. *)
Definition edge (s s' : OrderStatus) : Prop :=
  _is_valid_status_transition s s' = true.

(** The instant an aware datetime denotes, in microseconds UTC. *)
Definition instant (dt : datetime) : Z := wall dt - default 0 (tzinfo dt).

(** The datetimes on which the conversions of app/utils/timezone.py are
    the ones modelled, the microseconds being counted from 1 January 1970:
    from 1 January 1946 on, when Asia/Kolkata is at +05:30 whichever way
    a naive reading is taken, and up to 30 December 9999, a day short of
    [datetime.max], so that no conversion overflows. *)
Definition modern (dt : datetime) : Prop :=
  seconds (-757382400) <= instant dt <= seconds 253402214400.





(** What lets a request through the permission checks of [update_order]:
    a customer never passes, since [order.user_id != user.id] sets a [str]
    against an [int]. *)
Definition may_update (user : User) : bool :=
  negb (bool_decide (role user = CUSTOMER)).

(** The rows [get_orders] and [get_order_count] select, before any paging. *)
Definition selected (user : User) (status_ : option OrderStatus) (st : Store)
    : list (Z * Order) :=
  filter (has_status status_) (filter (visible_to user) (map_to_list st)).


(** The second test of the periodic pass, on a row read back. *)
Definition past_window (current_time_ist : datetime) (o : Order) : bool :=
  negb (dt_diff current_time_ist (mkDatetime (wall (created_at o)) (Some IST))
        <=? minutes 5)%Z.

(** ** Strings *)

Lemma append_nil (s : string) : (EmptyString ++ s)%string = s.
Proof. reflexivity. Qed.

Lemma append_cons c (s t : string) :
  (String c s ++ t)%string = String c (s ++ t).
Proof. reflexivity. Qed.

Lemma is_prefix_refl s : is_prefix s s.
Proof.
  exists EmptyString.
  induction s as [|c s IH]; [done | by rewrite append_cons, <- IH].
Qed.

Lemma is_prefix_empty s : is_prefix EmptyString s.
Proof. by exists s. Qed.

Lemma lstrip_app a b :
  lstrip a ≠ EmptyString -> lstrip (a ++ b) = (lstrip a ++ b)%string.
Proof.
  induction a as [|c a IH]; [done|].
  rewrite append_cons. simpl lstrip.
  destruct (isspace c); [exact IH | done].
Qed.

Lemma rstrip_cons_keeps c s :
  rstrip s ≠ EmptyString -> rstrip (String c s) = String c (rstrip s).
Proof. intros H. simpl. by destruct (rstrip s). Qed.

Lemma rstrip_cons_nonspace c s :
  isspace c = false -> rstrip (String c s) ≠ EmptyString.
Proof. intros H. simpl. rewrite H. by destruct (rstrip s). Qed.

Lemma rstrip_app a b :
  rstrip b ≠ EmptyString -> rstrip (a ++ b) = (a ++ rstrip b)%string.
Proof.
  intros Hb. induction a as [|c a IH]; [done|].
  rewrite !append_cons, rstrip_cons_keeps; [by rewrite IH|].
  rewrite IH. destruct a; [done|]. by rewrite append_cons.
Qed.

(** The annotation keeps what was there, less its leading whitespace. *)
Lemma annotate_prefix old tag text :
  is_prefix (lstrip (or_empty old)) (annotate old tag text).
Proof.
  unfold annotate, strip.
  destruct (decide (lstrip (or_empty old) = EmptyString)) as [E|E].
  - rewrite E. apply is_prefix_empty.
  - rewrite lstrip_app by done.
    rewrite rstrip_app; [by eexists|].
    unfold newline. rewrite !append_cons, !append_nil.
    rewrite rstrip_cons_keeps; [done|].
    by apply rstrip_cons_nonspace.
Qed.

Lemma lstrip_id c s : isspace c = false -> lstrip (String c s) = String c s.
Proof. intros H. simpl. by rewrite H. Qed.

(** ** The store and the commit *)

Lemma commit_order_lookup clock db_fails pk old new st st' :
  commit_order clock db_fails pk old new st = Ok st' ->
  st !! pk = Some old ->
  (st' = st ∧ new = old)
  ∨ (st' = <[pk := set_updated_at (stored (get_ist_now clock)) new]> st
     ∧ db_fails = false ∧ flush_ok new = true).
Proof.
  unfold commit_order. intros H Hold.
  destruct db_fails; [done|].
  case_bool_decide; [left; by simplify_eq|].
  destruct (flush_ok new); simpl in H; [|done].
  right. by simplify_eq.
Qed.

(** ** get_order_by_id *)

Lemma get_order_by_id_eq order_id user st :
  get_order_by_id order_id user st =
  match st !! order_id with
  | None => Ok None
  | Some o =>
      if bool_decide (role user = CUSTOMER)
         && negb (bool_decide (user_id o = id user))
      then Raise (HTTPException 403 "Access denied")
      else Ok (Some o)
  end.
Proof.
  unfold get_order_by_id, query_filter.
  destruct (st !! order_id) as [o|] eqn:E;
    repeat (case_bool_decide; simpl); try done;
    try (by destruct (is_Some_None (A := Order)));
    try (exfalso; eauto; fail).
Qed.

(** C9. [get_order_by_id] returns the order to a vendor or an admin whenever
    it exists, and to a customer exactly when the customer owns it; it
    returns [None] (not found) exactly when no order has that key; and it
    raises, always as 403 "Access denied", exactly when the requester is a
    customer and the order exists but belongs to someone else. *)
Theorem get_order_by_id_access (order_id : Z) (user : User) (st : Store) :
  (∀ o, get_order_by_id order_id user st = Ok (Some o)
        ↔ st !! order_id = Some o
          ∧ (role user = CUSTOMER -> user_id o = id user))
  ∧ (get_order_by_id order_id user st = Ok None ↔ st !! order_id = None)
  ∧ (∀ e, get_order_by_id order_id user st = Raise e
          ↔ e = HTTPException 403 "Access denied"
            ∧ role user = CUSTOMER
            ∧ ∃ o, st !! order_id = Some o ∧ user_id o ≠ id user).
Proof.
  rewrite get_order_by_id_eq.
  destruct (st !! order_id) as [o|] eqn:E;
    repeat (case_bool_decide; simpl); naive_solver.
Qed.

(** The three cases on the sample data: the owner, another customer, a
    vendor, and a key that is absent. *)
Lemma get_order_by_id_access_witness :
  get_order_by_id 1 alice pending_store = Ok (pending_store !! 1)
  ∧ get_order_by_id 1 bob pending_store
    = Raise (HTTPException 403 "Access denied")
  ∧ get_order_by_id 1 vendor pending_store = Ok (pending_store !! 1)
  ∧ get_order_by_id 7 bob pending_store = Ok None.
Proof.
  split; [|split; [|split]].
  - apply (get_order_by_id_access 1 alice pending_store). by vm_compute.
  - apply (get_order_by_id_access 1 bob pending_store).
    split; [done|]. split; [done|]. eexists. by vm_compute.
  - apply (get_order_by_id_access 1 vendor pending_store). by vm_compute.
  - apply (get_order_by_id_access 7 bob pending_store). by vm_compute.
Defined.

(** ** What a request leaves of a row *)

Lemma set_updated_at_same o : set_updated_at (updated_at o) o = o.
Proof. by destruct o. Qed.

(** A commit that succeeds stores the session's object, at most restamped,
    and no other row. *)
Lemma commit_order_ok clock db_fails pk old new st st' :
  commit_order clock db_fails pk old new st = Ok st' ->
  st !! pk = Some old ->
  db_fails = false
  ∧ (∃ t, st' !! pk = Some (set_updated_at t new))
  ∧ (∀ pk', pk' ≠ pk -> st' !! pk' = st !! pk').
Proof.
  intros H Hold.
  destruct (commit_order_lookup _ _ _ _ _ _ _ H Hold) as [[-> ->]|(-> & ? & _)].
  - split; [|split; [|done]].
    + unfold commit_order in H. by destruct db_fails.
    + exists (updated_at old). by rewrite set_updated_at_same.
  - split; [done|]. split.
    + eexists. apply lookup_insert_eq.
    + intros. by apply lookup_insert_ne.
Qed.

Lemma setattr_same_core o f v : same_core o (setattr o f v).
Proof. by destruct f. Qed.

Lemma patched_fields p o :
  customer_name (patched p o)
    = default (customer_name o) (OrderUpdate.customer_name p)
  ∧ customer_phone (patched p o)
    = default (customer_phone o) (OrderUpdate.customer_phone p)
  ∧ shipping_address (patched p o)
    = default (shipping_address o) (OrderUpdate.shipping_address p)
  ∧ notes (patched p o) = default (notes o) (OrderUpdate.notes p)
  ∧ status (patched p o) = status o
  ∧ updated_at (patched p o) = updated_at o
  ∧ same_core o (patched p o).
Proof.
  destruct p as [[?|] [?|] [?|] [?|]]; by destruct o.
Qed.

Lemma update_order_outcome clock db_fails order_id p user st :
  let r := update_order clock db_fails order_id p user st in
  (snd r = st ∧ ∃ e, fst r = Raise e)
  ∨ (∃ o t,
       st !! order_id = Some o
       ∧ db_fails = false
       ∧ fst r = Ok (set_updated_at t (patched p o))
       ∧ snd r !! order_id = Some (set_updated_at t (patched p o))
       ∧ ∀ pk, pk ≠ order_id -> snd r !! pk = st !! pk).
Proof.
  cbv zeta. unfold update_order. rewrite get_order_by_id_eq. fold (patched p).
  destruct (st !! order_id) as [o|] eqn:E; [|left; eauto].
  repeat (case_bool_decide; simpl); try (left; by eauto);
    (destruct (commit_order _ _ _ _ _ _) as [st'|e] eqn:C; [|left; by eauto]);
    destruct (commit_order_ok _ _ _ _ _ _ _ C E) as (? & [t Ht] & Hother);
    rewrite Ht; right; exists o, t; eauto 10.
Qed.

(** C10. Whoever asks and whatever the patch, [update_order] writes no row
    but the one addressed, and on that row it never changes [status],
    [total_amount], [user_id] or [items] (nor the e-mail, the tracking
    number or the creation time); a field the patch does not set keeps its
    value; when the update succeeds each of the four fields of the schema
    holds the patch's value if the patch set it and its prior value
    otherwise; when it fails the store is the one it started from. *)
Theorem update_order_frame (clock : Z) (db_fails : bool) (order_id : Z)
    (p : OrderUpdate.t) (user : User) (st : Store) :
  let r := update_order clock db_fails order_id p user st in
  (∀ pk, pk ≠ order_id -> snd r !! pk = st !! pk)
  ∧ (∀ o, st !! order_id = Some o ->
       ∃ o', snd r !! order_id = Some o'
         ∧ status o' = status o
         ∧ same_core o o'
         ∧ (OrderUpdate.customer_name p = None -> customer_name o' = customer_name o)
         ∧ (OrderUpdate.customer_phone p = None -> customer_phone o' = customer_phone o)
         ∧ (OrderUpdate.shipping_address p = None
            -> shipping_address o' = shipping_address o)
         ∧ (OrderUpdate.notes p = None -> notes o' = notes o))
  ∧ (∀ o o', st !! order_id = Some o -> fst r = Ok o' ->
       snd r !! order_id = Some o'
       ∧ customer_name o' = default (customer_name o) (OrderUpdate.customer_name p)
       ∧ customer_phone o' = default (customer_phone o) (OrderUpdate.customer_phone p)
       ∧ shipping_address o'
         = default (shipping_address o) (OrderUpdate.shipping_address p)
       ∧ notes o' = default (notes o) (OrderUpdate.notes p))
  ∧ (∀ e, fst r = Raise e -> snd r = st).
Proof.
  intros r.
  pose proof (update_order_outcome clock db_fails order_id p user st) as H.
  cbv zeta in H. fold r in H.
  destruct H as [[Hst [e He]]|(o & t & Ho & _ & Hr & Hrow & Hother)].
  - rewrite Hst, He. repeat split; try done.
    intros o Ho. exists o. unfold same_core. by rewrite Ho.
  - rewrite Hr, Hrow.
    destruct (patched_fields p o) as (Hn & Hp & Ha & Hno & Hs & _ & Hc).
    split; [done|]. split; [|split; [|done]].
    + intros o1 Ho1. simplify_eq. eexists. split; [done|].
      unfold same_core in *. simpl.
      rewrite Hn, Hp, Ha, Hno.
      repeat split; try tauto; try (by intros ->).
    + intros o1 o' Ho1 Ho'. simplify_eq. by simpl.
Qed.

(** The owner sets the phone number of a pending order: the row keeps its
    status, total, owner and items, and its other fields. *)
Lemma update_order_frame_witness :
  let p := OrderUpdate.mk None (Some (Some "555-0100")) None None in
  ∃ o', snd (update_order (at_age 0) false 1 p alice pending_store) !! 1 = Some o'
        ∧ status o' = PENDING
        ∧ same_core (sample_order 1 PENDING None t0) o'
        ∧ customer_name o' = Some "A. Customer"
        ∧ notes o' = None.
Proof.
  intros p.
  destruct (update_order_frame (at_age 0) false 1 p alice pending_store)
    as (_ & H & _).
  destruct (H (sample_order 1 PENDING None t0)) as (o' & Ho' & Hs & Hc & Hn & _ & _ & Hno);
    [by vm_compute|].
  exists o'. split; [exact Ho'|]. split; [exact Hs|]. split; [exact Hc|].
  split; [exact (Hn eq_refl) | exact (Hno eq_refl)].
Defined.

(** ** update_order_status and cancel_order, outcome by outcome *)

Arguments transitioned : simpl never.
Arguments cancelled : simpl never.

(** The tail the three requests share: commit, then read the row back. *)
Ltac commit_tail E :=
  match goal with
  | H : context [commit_order ?c ?f ?pk ?old ?new ?st] |- _ =>
      let C := fresh "C" in
      destruct (commit_order c f pk old new st) as [?st'|?e] eqn:C;
      [ let t := fresh "t" in let Ht := fresh "Ht" in
        destruct (commit_order_ok _ _ _ _ _ _ _ C E) as (? & [t Ht] & ?);
        rewrite Ht in H; subst; right; eexists _, t; simpl; eauto 10
      | subst; left; simpl; eauto ]
  end.

Lemma update_order_status_outcome fmt clock db_fails order_id new_status
    notes_ user bypass st :
  let r := update_order_status fmt clock db_fails order_id new_status notes_
             user bypass st in
  (snd r = st ∧ ∃ e, fst r = Raise e)
  ∨ (∃ o t,
       st !! order_id = Some o
       ∧ _is_valid_status_transition (status o) new_status = true
       ∧ db_fails = false
       ∧ fst r = Ok (set_updated_at t (transitioned fmt new_status notes_ o))
       ∧ snd r !! order_id
         = Some (set_updated_at t (transitioned fmt new_status notes_ o))
       ∧ ∀ pk, pk ≠ order_id -> snd r !! pk = st !! pk).
Proof.
  intros r. assert (Hr : r = update_order_status fmt clock db_fails order_id
                              new_status notes_ user bypass st) by done.
  clearbody r. unfold update_order_status in Hr.
  rewrite get_order_by_id_eq in Hr.
  fold (transitioned fmt new_status notes_) in Hr.
  destruct (st !! order_id) as [o|] eqn:E; [|subst; left; simpl; eauto].
  destruct (bool_decide (role user = CUSTOMER)
            && negb (bool_decide (user_id o = id user)));
    [subst; left; simpl; eauto|].
  match type of Hr with
  | context [match ?p with Ok _ => _ | Raise _ => _ end] =>
      destruct p as [[]|e]; [|subst; left; simpl; eauto]
  end.
  destruct (_is_valid_status_transition (status o) new_status) eqn:V;
    simpl in Hr; [|subst; left; simpl; eauto].
  commit_tail E.
Qed.

Lemma cancel_order_outcome fmt clock db_fails order_id user st :
  let r := cancel_order fmt clock db_fails order_id user st in
  (snd r = st ∧ ∃ e, fst r = Raise e)
  ∨ (∃ o t,
       st !! order_id = Some o
       ∧ status o ≠ DELIVERED ∧ status o ≠ CANCELLED
       ∧ db_fails = false
       ∧ fst r = Ok (set_updated_at t (cancelled fmt user o))
       ∧ snd r !! order_id = Some (set_updated_at t (cancelled fmt user o))
       ∧ ∀ pk, pk ≠ order_id -> snd r !! pk = st !! pk).
Proof.
  intros r. assert (Hr : r = cancel_order fmt clock db_fails order_id user st)
    by done.
  clearbody r. unfold cancel_order in Hr. fold (cancelled fmt user) in Hr.
  destruct (st !! order_id) as [o|] eqn:E; [|subst; left; simpl; eauto].
  unfold py_in in Hr at 1. case_bool_decide as Hin;
    [subst; left; simpl; eauto|].
  assert (status o ≠ DELIVERED ∧ status o ≠ CANCELLED) as [? ?]
    by (split; intros Hs; apply Hin; rewrite Hs; set_solver).
  match type of Hr with
  | context [match ?p with Ok _ => _ | Raise _ => _ end] =>
      destruct p as [[]|e]; [|subst; left; simpl; eauto]
  end.
  commit_tail E.
Qed.

(** ** The transition graph *)

Arguments _is_valid_status_transition : simpl never.

Lemma no_self_loop s : _is_valid_status_transition s s = false.
Proof. by destruct s. Qed.

Lemma terminal_no_edge s s' :
  s = CANCELLED ∨ s = REFUNDED -> _is_valid_status_transition s s' = false.
Proof. by intros [-> | ->]; destruct s'. Qed.

(** C4, as amended.  A request for an edge that is not in the graph, a
    self-loop included, never succeeds and leaves the store as it was.  It
    fails as Invalid (400, with the invalid-transition detail) when the
    requester is a vendor or an admin, or an owner for whom the permission
    checks are bypassed; the permission checks come first, so a customer
    who is not bypassed is denied with 403, and a customer who does not
    own the order is denied with 403 "Access denied". *)
Theorem absent_edge_rejected fmt (clock : Z) (db_fails : bool) (order_id : Z)
    (new_status : OrderStatus) (notes_ : option string) (user : User)
    (bypass : bool) (st : Store) (order : Order) :
  st !! order_id = Some order ->
  new_status = status order
  ∨ _is_valid_status_transition (status order) new_status = false ->
  let r := update_order_status fmt clock db_fails order_id new_status notes_
             user bypass st in
  snd r = st
  ∧ (role user ≠ CUSTOMER ∨ (user_id order = id user ∧ bypass = true) ->
     fst r = Raise (HTTPException 400
                      (invalid_transition_detail fmt (status order) new_status)))
  ∧ (role user = CUSTOMER -> bypass = false ->
     ∃ detail, fst r = Raise (HTTPException 403 detail))
  ∧ (role user = CUSTOMER -> user_id order ≠ id user ->
     fst r = Raise (HTTPException 403 "Access denied")).
Proof.
  intros Ho Hedge.
  assert (V : _is_valid_status_transition (status order) new_status = false)
    by (destruct Hedge as [-> | ?]; [apply no_self_loop | done]).
  cbv zeta. unfold update_order_status.
  rewrite get_order_by_id_eq, Ho.
  change (py_eq (user_id_attr order) (key_int (id user))) with false.
  destruct (role user) eqn:R, bypass;
    repeat (case_bool_decide; simpl); rewrite ?V; simpl;
    naive_solver.
Qed.

(** A vendor asks for [pending -> pending]: Invalid, and nothing written. *)
Lemma absent_edge_rejected_witness :
  let r := update_order_status OrderStatus_value (at_age 0) false 1 PENDING
             (Some "again") vendor false pending_store in
  snd r = pending_store
  ∧ fst r = Raise (HTTPException 400
                     "Invalid status transition from pending to pending").
Proof.
  intros r.
  destruct (absent_edge_rejected OrderStatus_value (at_age 0) false 1 PENDING
              (Some "again") vendor false pending_store
              (sample_order 1 PENDING None t0))
    as (Hst & Hinv & _).
  - by vm_compute.
  - by left.
  - split; [exact Hst|]. apply Hinv. by left.
Defined.

(** C4, as the specification words it, fails: the owner of a pending order
    who asks for [pending -> pending] is turned away by the role check, with
    403, before the graph is consulted. *)
Lemma absent_edge_denied_by_role :
  ¬ (∀ fmt clock db_fails order_id new_status notes_ user bypass st order,
       st !! order_id = Some order ->
       _is_valid_status_transition (status order) new_status = false ->
       fst (update_order_status fmt clock db_fails order_id new_status notes_
              user bypass st)
       = Raise (HTTPException 400
                  (invalid_transition_detail fmt (status order) new_status))).
Proof.
  intros H.
  specialize (H OrderStatus_value (at_age 0) false 1 PENDING None alice false
                pending_store (sample_order 1 PENDING None t0)).
  discriminate H; by vm_compute.
Qed.

(** ** Notes *)

(** C8, as amended.  A status change with non-empty notes and a
    cancellation replace the notes by the trimmed concatenation of the
    previous notes, a newline and the status-tagged annotation, so the
    previous notes, less their leading whitespace, are a prefix of the new
    value; a status change without notes leaves them as they were;
    [update_order] overwrites them with the patch's value when the patch
    sets one and leaves them otherwise.  In each case the value returned is
    the one stored. *)
Theorem notes_written fmt_status fmt_role (clock : Z) (db_fails : bool)
    (order_id : Z) (user : User) (st : Store) (o o' : Order) :
  st !! order_id = Some o ->
  (∀ new_status notes_ bypass,
     let r := update_order_status fmt_status clock db_fails order_id
                new_status notes_ user bypass st in
     fst r = Ok o' ->
     snd r !! order_id = Some o'
     ∧ notes o' = (if truthy notes_
                   then Some (annotate (notes o) (fmt_status new_status)
                                (or_empty notes_))
                   else notes o)
     ∧ (truthy notes_ = true ->
        is_prefix (lstrip (or_empty (notes o))) (or_empty (notes o'))))
  ∧ (let r := cancel_order fmt_role clock db_fails order_id user st in
     fst r = Ok o' ->
     snd r !! order_id = Some o'
     ∧ notes o' = Some (annotate (notes o) "CANCELLED"
                          ("Order cancelled by " ++ fmt_role (role user)))
     ∧ is_prefix (lstrip (or_empty (notes o))) (or_empty (notes o')))
  ∧ (∀ p,
       let r := update_order clock db_fails order_id p user st in
       fst r = Ok o' ->
       snd r !! order_id = Some o'
       ∧ notes o' = default (notes o) (OrderUpdate.notes p)).
Proof.
  intros Ho. split; [|split].
  - intros new_status notes_ bypass r Hr.
    pose proof (update_order_status_outcome fmt_status clock db_fails order_id
                  new_status notes_ user bypass st) as H.
    cbv zeta in H. fold r in H.
    destruct H as [[_ [e He]]|(o1 & t & Ho1 & _ & _ & Hf & Hrow & _)];
      [congruence|].
    rewrite Hf in Hr. simplify_eq. split; [done|].
    assert (notes (set_updated_at t (transitioned fmt_status new_status notes_ o))
            = (if truthy notes_
               then Some (annotate (notes o) (fmt_status new_status)
                            (or_empty notes_))
               else notes o)) as ->
      by (unfold transitioned; by destruct (truthy notes_)).
    split; [done|]. intros ->. apply annotate_prefix.
  - intros r Hr.
    pose proof (cancel_order_outcome fmt_role clock db_fails order_id user st)
      as H.
    cbv zeta in H. fold r in H.
    destruct H as [[_ [e He]]|(o1 & t & Ho1 & _ & _ & _ & Hf & Hrow & _)];
      [congruence|].
    rewrite Hf in Hr. simplify_eq. split; [done|]. split; [done|].
    apply annotate_prefix.
  - intros p r Hr.
    pose proof (update_order_outcome clock db_fails order_id p user st) as H.
    cbv zeta in H. fold r in H.
    destruct H as [[_ [e He]]|(o1 & t & Ho1 & _ & Hf & Hrow & _)];
      [congruence|].
    rewrite Hf in Hr. simplify_eq. split; [done|].
    by destruct (patched_fields p o) as (_ & _ & _ & Hn & _).
Qed.

(** A vendor moves a pending order to processing with a note, on notes that
    did not start with whitespace: the old notes are a prefix of the new. *)
Lemma notes_written_witness :
  ∃ o', fst (update_order_status OrderStatus_value (at_age 0) false 1
               PROCESSING (Some "picked") vendor false gift_store) = Ok o'
        ∧ is_prefix "gift wrap" (or_empty (notes o')).
Proof.
  set (o' := set_updated_at (stored (get_ist_now (at_age 0)))
               (transitioned OrderStatus_value PROCESSING (Some "picked")
                  (sample_order 1 PENDING (Some "gift wrap") t0))).
  exists o'. split; [by vm_compute|].
  destruct (notes_written OrderStatus_value UserRole_value (at_age 0) false 1
              vendor gift_store (sample_order 1 PENDING (Some "gift wrap") t0) o')
    as (H & _ & _); [by vm_compute|].
  destruct (H PROCESSING (Some "picked") false) as (_ & _ & Hp);
    [by vm_compute|].
  exact (Hp eq_refl).
Defined.

(** C8, as the specification words it, fails twice: [update_order] replaces
    the notes by the patch's, and the trimming of a status change drops the
    whitespace the previous notes began with. *)
Lemma notes_not_append_only :
  ¬ (∀ clock db_fails order_id p user (st : Store) o o',
       st !! order_id = Some o ->
       fst (update_order clock db_fails order_id p user st) = Ok o' ->
       is_prefix (or_empty (notes o)) (or_empty (notes o')))
  ∧ ¬ (∀ fmt clock db_fails order_id new_status notes_ user bypass
         (st : Store) o o',
         st !! order_id = Some o ->
         fst (update_order_status fmt clock db_fails order_id new_status
                notes_ user bypass st) = Ok o' ->
         is_prefix (or_empty (notes o)) (or_empty (notes o'))).
Proof.
  split.
  - intros H.
    destruct (H (at_age 0) false 1
                (OrderUpdate.mk None None None (Some (Some "x"))) vendor
                refunded_store
                (sample_order 1 REFUNDED (Some "paid back") t0)
                (set_updated_at (stored (get_ist_now (at_age 0)))
                   (sample_order 1 REFUNDED (Some "x") t0)))
      as [t Ht]; [by vm_compute | by vm_compute |].
    by vm_compute in Ht.
  - intros H.
    destruct (H OrderStatus_value (at_age 0) false 1 PROCESSING (Some "picked")
                vendor false
                {[ 1 := sample_order 1 PENDING (Some " gift wrap") t0 ]}
                (sample_order 1 PENDING (Some " gift wrap") t0)
                (set_updated_at (stored (get_ist_now (at_age 0)))
                   (transitioned OrderStatus_value PROCESSING (Some "picked")
                      (sample_order 1 PENDING (Some " gift wrap") t0))))
      as [t Ht]; [by vm_compute | by vm_compute |].
    by vm_compute in Ht.
Qed.

(** ** Terminal statuses *)

(** [update_order_status] writes nothing on a cancelled or refunded order,
    whoever asks and whatever the target. *)
Lemma terminal_update_order_status fmt clock db_fails order_id new_status
    notes_ user bypass (st : Store) o :
  st !! order_id = Some o ->
  status o = CANCELLED ∨ status o = REFUNDED ->
  let r := update_order_status fmt clock db_fails order_id new_status notes_
             user bypass st in
  snd r = st ∧ is_ok (fst r) = false.
Proof.
  intros Ho Hterm r.
  pose proof (update_order_status_outcome fmt clock db_fails order_id
                new_status notes_ user bypass st) as H.
  cbv zeta in H. fold r in H.
  destruct H as [[Hst [e He]]|(o1 & t & Ho1 & V & _)].
  - by rewrite He.
  - simplify_eq. by rewrite terminal_no_edge in V.
Qed.

(** [cancel_order] writes nothing on a cancelled order. *)
Lemma cancel_order_cancelled fmt clock db_fails order_id user (st : Store) o :
  st !! order_id = Some o ->
  status o = CANCELLED ->
  let r := cancel_order fmt clock db_fails order_id user st in
  snd r = st ∧ is_ok (fst r) = false.
Proof.
  intros Ho Hs r.
  pose proof (cancel_order_outcome fmt clock db_fails order_id user st) as H.
  cbv zeta in H. fold r in H.
  destruct H as [[Hst [e He]]|(o1 & t & Ho1 & _ & Hn & _)].
  - by rewrite He.
  - by simplify_eq.
Qed.

(** A customer cannot cancel a refunded order. *)
Lemma cancel_order_refunded_customer fmt clock db_fails order_id user
    (st : Store) o :
  st !! order_id = Some o ->
  status o = REFUNDED ->
  role user = CUSTOMER ->
  let r := cancel_order fmt clock db_fails order_id user st in
  snd r = st ∧ is_ok (fst r) = false.
Proof.
  intros Ho Hs Hr. cbv zeta. unfold cancel_order.
  rewrite Ho, Hs, Hr. simpl.
  by case_bool_decide.
Qed.

(** The guard of [cancel_order] lists delivered and cancelled, not refunded:
    a vendor or an admin who cancels a refunded order moves it to
    cancelled. *)
Lemma cancel_order_refunded_staff fmt clock order_id user (st : Store) o :
  st !! order_id = Some o ->
  status o = REFUNDED ->
  flush_ok o = true ->
  role user ≠ CUSTOMER ->
  let r := cancel_order fmt clock false order_id user st in
  ∃ o', fst r = Ok o' ∧ snd r !! order_id = Some o' ∧ status o' = CANCELLED.
Proof.
  intros Ho Hs Hf Hr. cbv zeta. unfold cancel_order.
  rewrite Ho, Hs. simpl.
  destruct (role user) eqn:R; [| |done]; simpl;
    (unfold commit_order; simpl;
     rewrite bool_decide_eq_false_2
       by (intros Heq; apply (f_equal status) in Heq; simpl in Heq; congruence);
     replace (flush_ok _) with true by (symmetry; exact Hf); simpl;
     rewrite lookup_insert_eq; eexists; split; [reflexivity|];
     split; [apply lookup_insert_eq | reflexivity]).
Qed.

(** C1.  The terminal invariant fails on [cancel_order]: a vendor cancels
    the refunded order of the sample store, and the order, which was
    refunded, is stored as cancelled. *)
Theorem cancel_order_leaves_refunded :
  let r := cancel_order UserRole_value (at_age (seconds 301)) false 1 vendor
             refunded_store in
  status <$> refunded_store !! 1 = Some REFUNDED
  ∧ is_ok (fst r) = true
  ∧ status <$> snd r !! 1 = Some CANCELLED
  ∧ _is_valid_status_transition REFUNDED CANCELLED = false.
Proof. by vm_compute. Qed.

(** ** The customer's cancellation window *)

(** On a creation time read back from the store, which is naive,
    [to_ist] takes the IST reading for a UTC one: the difference compared
    is the age less 5 h 30 min. *)
Lemma time_diff_naive clock o :
  tzinfo (created_at o) = None ->
  time_diff clock o = order_age clock o - IST.
Proof.
  unfold time_diff, order_age, dt_diff, to_ist, astimezone, get_ist_now,
    datetime_now. intros ->. simpl. unfold utc. lia.
Qed.

(** On an aware creation time the difference is that of the instants. *)
Lemma time_diff_aware clock o tz :
  tzinfo (created_at o) = Some tz ->
  time_diff clock o = clock - (wall (created_at o) - tz).
Proof.
  unfold time_diff, dt_diff, to_ist, astimezone, get_ist_now, datetime_now.
  intros H. rewrite H. simpl. rewrite H. simpl. lia.
Qed.

(** The owner's cancellation of a pending order succeeds exactly when the
    difference computed is at most 300 seconds, and fails with the
    window-expired reason otherwise. *)
Lemma cancel_order_window fmt clock order_id user (st : Store) o :
  st !! order_id = Some o ->
  role user = CUSTOMER ->
  user_id o = id user ->
  status o = PENDING ->
  flush_ok o = true ->
  let r := cancel_order fmt clock false order_id user st in
  (time_diff clock o <= seconds 300 ->
   ∃ o', fst r = Ok o' ∧ snd r !! order_id = Some o' ∧ status o' = CANCELLED)
  ∧ (seconds 300 < time_diff clock o ->
     snd r = st
     ∧ fst r = Raise (PermissionError
                        "You can only cancel orders within 5 minutes of creation")).
Proof.
  intros Ho Hr Hu Hs Hf. cbv zeta. unfold cancel_order.
  rewrite Ho, Hs, Hr. simpl.
  rewrite (bool_decide_eq_true_2 _ Hu). simpl.
  fold (time_diff clock o).
  destruct (Z.ltb_spec (seconds 300) (time_diff clock o)); split; try lia.
  - done.
  - intros _. unfold commit_order; simpl.
    rewrite bool_decide_eq_false_2
      by (intros Heq; apply (f_equal status) in Heq; simpl in Heq; congruence).
    replace (flush_ok _) with true by (symmetry; exact Hf). simpl.
    rewrite lookup_insert_eq. eexists. split; [reflexivity|].
    split; [apply lookup_insert_eq | reflexivity].
Qed.

(** C3.  The window fails on the code: the owner cancels the pending order
    of the sample store 301 seconds after its creation, and the
    cancellation succeeds; so it does 20100 seconds after, and only past
    5 h 35 min is it refused as too late. *)
Theorem cancel_order_after_window :
  let o := sample_order 1 PENDING None t0 in
  let r := cancel_order UserRole_value (at_age (seconds 301)) false 1 alice
             pending_store in
  pending_store !! 1 = Some o
  ∧ user_id o = id alice
  ∧ order_age (at_age (seconds 301)) o = seconds 301
  ∧ is_ok (fst r) = true
  ∧ status <$> snd r !! 1 = Some CANCELLED
  ∧ is_ok (fst (cancel_order UserRole_value (at_age (seconds 20100)) false 1
                  alice pending_store)) = true
  ∧ fst (cancel_order UserRole_value (at_age (seconds 20101)) false 1 alice
           pending_store)
    = Raise (PermissionError
               "You can only cancel orders within 5 minutes of creation").
Proof. by vm_compute. Qed.

(** ** The status handler *)

(** [Order] is not a name of the routes module. *)
Lemma Order_not_bound : routes.load_global "Order" = Raise (NameError "Order").
Proof. by vm_compute. Qed.

Lemma OrderStatus_of_raise v e :
  routes.OrderStatus_of v = Raise e -> ∃ m, e = ValueError m.
Proof.
  unfold routes.OrderStatus_of. intros H.
  destruct v; try (simplify_eq; by eexists).
  destruct (find _ _); simplify_eq; by eexists.
Qed.

(** C2, as amended.  The handler of [PATCH /orders/{order_id}/status]
    never writes to the store and never succeeds.  With a status literal of
    the enumeration in the body it reaches [Order], which the module does
    not bind, and the [NameError] becomes 500 "Internal server error";
    without a [status] key the [KeyError] becomes the same 500; with a
    status that is no member of the enumeration the [ValueError] is raised
    first and becomes 400. *)
Theorem status_handler_never_writes fmt (clock : Z) (db_fails : bool)
    (order_id : Z) (status_update : gmap string routes.JSON) (user : User)
    (st : Store) :
  let r := routes.update_order_status fmt clock db_fails order_id
             status_update user st in
  snd r = st
  ∧ is_ok (fst r) = false
  ∧ (∀ v s, status_update !! "status" = Some v ->
            routes.OrderStatus_of v = Ok s ->
            fst r = Raise (HTTPException 500 "Internal server error"))
  ∧ (status_update !! "status" = None ->
     fst r = Raise (HTTPException 500 "Internal server error"))
  ∧ (∀ v m, status_update !! "status" = Some v ->
            routes.OrderStatus_of v = Raise (ValueError m) ->
            fst r = Raise (HTTPException 400 m)).
Proof.
  cbv zeta.
  unfold routes.update_order_status, routes.update_order_status_try,
    routes.getitem, mbind, result_bind.
  rewrite Order_not_bound.
  destruct (status_update !! "status") as [v|] eqn:E; simpl.
  - destruct (routes.OrderStatus_of v) as [s|e] eqn:Ev; simpl.
    + repeat split; intros; simplify_eq; try done; congruence.
    + destruct (OrderStatus_of_raise _ _ Ev) as [m ->]. simpl.
      repeat split; intros; simplify_eq; try done; congruence.
  - repeat split; intros; simplify_eq; try done; congruence.
Qed.

(** A well-formed request: [{"status": "processing"}] on the pending order
    of the sample store. *)
Lemma status_handler_never_writes_witness :
  let r := routes.update_order_status OrderStatus_value (at_age 0) false 1
             {[ "status" := routes.JString "processing" ]} alice
             pending_store in
  snd r = pending_store
  ∧ fst r = Raise (HTTPException 500 "Internal server error").
Proof.
  intros r.
  destruct (status_handler_never_writes OrderStatus_value (at_age 0) false 1
              {[ "status" := routes.JString "processing" ]} alice
              pending_store) as (Hst & _ & H500 & _).
  split; [exact Hst|].
  apply (H500 (routes.JString "processing") PROCESSING); by vm_compute.
Defined.

(** C2, as worded, fails: not every invocation ends in the [NameError] and
    500.  A body whose status is no member of the enumeration is answered
    400. *)
Lemma status_handler_not_always_500 :
  ¬ (∀ fmt clock db_fails order_id status_update user st,
       fst (routes.update_order_status fmt clock db_fails order_id
              status_update user st)
       = Raise (HTTPException 500 "Internal server error")).
Proof.
  intros H.
  specialize (H OrderStatus_value (at_age 0) false 1
                {[ "status" := routes.JString "bogus" ]} alice pending_store).
  by vm_compute in H.
Qed.

(** ** Totals *)

Lemma ten_not_0 : ¬ (inject_Z 10 == 0)%Q.
Proof. by intros H. Qed.

Lemma dec_value_mul_int d n :
  (dec_value (dec_mul_int d n) == inject_Z n * dec_value d)%Q.
Proof.
  unfold dec_value, dec_mul_int. simpl.
  rewrite Z.add_0_r, inject_Z_mult. ring.
Qed.

Lemma rescale_value d e :
  (e <= expn d)%Z ->
  (inject_Z (rescale d e) * inject_Z 10 ^ e == dec_value d)%Q.
Proof.
  intros He. unfold rescale, dec_value.
  rewrite inject_Z_mult, Zpower_Qpower by lia.
  replace (expn d) with ((expn d - e) + e)%Z at 2 by lia.
  rewrite (Qpower_plus (inject_Z 10)) by apply ten_not_0.
  change (10 # 1)%Q with (inject_Z 10). ring.
Qed.

Lemma dec_value_add a b :
  (dec_value (dec_add a b) == dec_value a + dec_value b)%Q.
Proof.
  unfold dec_add.
  set (e := Z.min (expn a) (expn b)).
  rewrite <- (rescale_value a e), <- (rescale_value b e) by lia.
  unfold dec_value. simpl. rewrite inject_Z_plus.
  change (10 # 1)%Q with (inject_Z 10). ring.
Qed.

Lemma items_sum_app l1 l2 :
  (items_sum (l1 ++ l2)%list == items_sum l1 + items_sum l2)%Q.
Proof.
  induction l1 as [|it l1 IH]; simpl; [ring|]. rewrite IH. ring.
Qed.

(** The item loop: it appends the items built from the submitted ones and
    adds their line totals to the running total. *)
Lemma create_items_spec pk l added total :
  ∃ total',
    create_items pk l added total = ((added ++ map (item_of pk) l)%list, total')
    ∧ (dec_value total' == dec_value total + submitted_sum l)%Q.
Proof.
  revert added total. induction l as [|d l IH]; intros added total; simpl.
  - exists total. rewrite app_nil_r. split; [done | ring].
  - destruct (IH (added ++ [item_of pk d])%list
                 (dec_add total (dec_mul_int (OrderItemCreate.unit_price d)
                                             (OrderItemCreate.quantity d))))
      as (total' & Heq & Hv).
    exists total'. split.
    + unfold item_of in Heq. rewrite Heq. by rewrite <- app_assoc.
    + rewrite Hv, dec_value_add, dec_value_mul_int. ring.
Qed.

Lemma py_sum_value l init :
  (dec_value (fold_left dec_add l init)
   == dec_value init + fold_right (fun d acc => dec_value d + acc) 0 l)%Q.
Proof.
  revert init. induction l as [|d l IH]; intros init; simpl; [ring|].
  rewrite IH, dec_value_add. ring.
Qed.

(** [calculate_total] is the sum of the stored line totals. *)
Lemma calculate_total_value o :
  Forall line_ok (items o) ->
  (dec_value (calculate_total o) == items_sum (items o))%Q.
Proof.
  unfold calculate_total, py_sum. rewrite py_sum_value.
  change (dec_value (mkDecimal 0 0)) with (0 * 1)%Q.
  induction 1 as [|it its Hit _ IH]; simpl; [ring|].
  rewrite Hit, dec_value_mul_int. ring_simplify.
  ring_simplify in IH. rewrite IH. ring.
Qed.

Lemma total_ok_same_core o o' : same_core o o' -> total_ok o -> total_ok o'.
Proof.
  intros (_ & Ht & Hi & _) [Hv Hl]. unfold total_ok. by rewrite Ht, Hi.
Qed.

Lemma set_updated_at_same_core o o' t :
  same_core o o' -> same_core o (set_updated_at t o').
Proof. done. Qed.

Lemma transitioned_same_core fmt s n o : same_core o (transitioned fmt s n o).
Proof. unfold transitioned. by destruct (truthy n). Qed.

Lemma cancelled_same_core fmt u o : same_core o (cancelled fmt u o).
Proof. done. Qed.

Lemma same_core_refl o : same_core o o.
Proof. done. Qed.

(** A request that wrote at most the row [order_id], and into it an object
    with the same core, leaves every row its core. *)
Lemma row_same_core (st st' : Store) order_id (new : Order) k o o' :
  (st' = st
   ∨ (∃ o0, st !! order_id = Some o0 ∧ same_core o0 new
            ∧ st' !! order_id = Some new
            ∧ ∀ pk, pk ≠ order_id -> st' !! pk = st !! pk)) ->
  st !! k = Some o -> st' !! k = Some o' -> same_core o o'.
Proof.
  intros [-> | (o0 & Ho0 & Hc & Hnew & Hother)] Ho Ho'.
  - simplify_eq. apply same_core_refl.
  - destruct (decide (k = order_id)) as [-> | Hne].
    + by simplify_eq.
    + rewrite Hother in Ho' by done. simplify_eq. apply same_core_refl.
Qed.

(** Each request of the service leaves every row its owner, total and
    items. *)
Lemma update_order_same_core clock db_fails order_id p user (st : Store) k o o' :
  st !! k = Some o ->
  snd (update_order clock db_fails order_id p user st) !! k = Some o' ->
  same_core o o'.
Proof.
  pose proof (update_order_outcome clock db_fails order_id p user st) as H.
  cbv zeta in H.
  destruct H as [[Hst _]|(o0 & t & Ho0 & _ & _ & Hrow & Hother)].
  - apply (row_same_core _ _ order_id o). by left.
  - apply (row_same_core _ _ order_id (set_updated_at t (patched p o0))).
    right. exists o0. repeat split; try done.
    all: by destruct (patched_fields p o0) as (_ & _ & _ & _ & _ & _ & Hc);
      destruct Hc as (? & ? & ? & ? & ? & ?).
Qed.

Lemma update_order_status_same_core fmt clock db_fails order_id new_status
    notes_ user bypass (st : Store) k o o' :
  st !! k = Some o ->
  snd (update_order_status fmt clock db_fails order_id new_status notes_ user
         bypass st) !! k = Some o' ->
  same_core o o'.
Proof.
  pose proof (update_order_status_outcome fmt clock db_fails order_id
                new_status notes_ user bypass st) as H.
  cbv zeta in H.
  destruct H as [[Hst _]|(o0 & t & Ho0 & _ & _ & _ & Hrow & Hother)].
  - apply (row_same_core _ _ order_id o). by left.
  - apply (row_same_core _ _ order_id
             (set_updated_at t (transitioned fmt new_status notes_ o0))).
    right. exists o0. split; [done|]. split; [|done].
    apply set_updated_at_same_core, transitioned_same_core.
Qed.

Lemma cancel_order_same_core fmt clock db_fails order_id user (st : Store)
    k o o' :
  st !! k = Some o ->
  snd (cancel_order fmt clock db_fails order_id user st) !! k = Some o' ->
  same_core o o'.
Proof.
  pose proof (cancel_order_outcome fmt clock db_fails order_id user st) as H.
  cbv zeta in H.
  destruct H as [[Hst _]|(o0 & t & Ho0 & _ & _ & _ & _ & Hrow & Hother)].
  - apply (row_same_core _ _ order_id o). by left.
  - apply (row_same_core _ _ order_id
             (set_updated_at t (cancelled fmt user o0))).
    right. exists o0. split; [done|]. split; [|done].
    apply set_updated_at_same_core, cancelled_same_core.
Qed.

(** ** The round trip of a Numeric(10, 2) column *)

Lemma div_half_even_unique (a b k : Z) :
  (0 < b)%Z -> (2 * Z.abs (k * b - a) < b)%Z -> div_half_even a b = k.
Proof.
  intros Hb Hk. unfold div_half_even.
  pose proof (Z.div_mod a b ltac:(lia)) as Hdm.
  pose proof (Z.mod_pos_bound a b Hb) as Hmod.
  destruct (Z_le_gt_dec (k * b) a) as [Hle|Hgt].
  - assert (a / b = k)%Z as Hq
      by (symmetry; apply (Z.div_unique a b k (a - k * b)); lia).
    assert (a mod b = a - k * b)%Z as Hr by (rewrite <- Hq in *; lia).
    rewrite Hq, Hr.
    destruct (Z.compare_spec (2 * (a - k * b)) b); lia.
  - assert (a / b = k - 1)%Z as Hq
      by (symmetry; apply (Z.div_unique a b (k - 1) (a - (k - 1) * b)); lia).
    assert (a mod b = a - (k - 1) * b)%Z as Hr by (rewrite <- Hq in *; lia).
    rewrite Hq, Hr.
    destruct (Z.compare_spec (2 * (a - (k - 1) * b)) b); lia.
Qed.

Lemma div_half_even_near (a b : Z) :
  (0 < b)%Z -> (2 * Z.abs (div_half_even a b * b - a) <= b)%Z.
Proof.
  intros Hb. unfold div_half_even.
  pose proof (Z.div_mod a b ltac:(lia)) as Hdm.
  pose proof (Z.mod_pos_bound a b Hb) as Hmod.
  destruct (Z.compare_spec (2 * (a mod b)) b); [destruct (Z.even _)| |]; nia.
Qed.

(** A number of hundredths below [2 ^ 45] units comes back from its
    nearest double as it was written. *)
Lemma to_decimal_nearest_double (num den c : Z) :
  (0 < den)%Z -> (100 * num = c * den)%Z -> (Z.abs num < 2 ^ 45 * den)%Z ->
  to_decimal 2 (nearest_double num den) = mkDecimal c (-2).
Proof.
  intros Hden Hc Hbound. unfold nearest_double.
  destruct (Z.eqb_spec num 0) as [-> | Hnum].
  { assert (c = 0)%Z as -> by nia. reflexivity. }
  set (e0 := (Z.log2 (Z.abs num) - Z.log2 den - 52)%Z).
  assert (e0 <= -7)%Z as He0.
  { assert (Z.log2 (Z.abs num) < 46 + Z.log2 den)%Z; [|unfold e0; lia].
    apply Z.log2_lt_pow2; [lia|].
    pose proof (Z.log2_spec den Hden) as [_ Hd].
    rewrite Z.pow_add_r by (pose proof (Z.log2_nonneg den); lia).
    replace (Z.succ (Z.log2 den)) with (1 + Z.log2 den)%Z in Hd by lia.
    rewrite Z.pow_add_r in Hd by (pose proof (Z.log2_nonneg den); lia).
    change (2 ^ 1)%Z with 2%Z in Hd. change (2 ^ 46)%Z with (2 * 2 ^ 45)%Z.
    nia. }
  destruct (scale2 (Z.abs num) den e0) as [n0 d0].
  set (e := Z.max (if (n0 <? 2 ^ 52 * d0)%Z then e0 - 1 else e0)%Z (-1074)).
  assert (e <= -7)%Z as He by (unfold e; destruct (n0 <? 2 ^ 52 * d0)%Z; lia).
  clearbody e. clear e0 He0 n0 d0.
  unfold scale2 at 1.
  destruct (Z.leb_spec 0 e) as [?|_]; [lia|].
  unfold to_decimal, scale2. simpl mant. simpl fexp.
  destruct (Z.leb_spec 0 (- e)) as [_|?]; [|lia].
  change (- (2))%Z with (-2)%Z. f_equal.
  set (P := (2 ^ (- e))%Z).
  assert (128 <= P)%Z as HP.
  { unfold P. change 128%Z with (2 ^ 7)%Z. apply Z.pow_le_mono_r; lia. }
  clearbody P.
  pose proof (div_half_even_near (num * P) den Hden) as Hm.
  set (m := div_half_even (num * P) den) in *. clearbody m.
  change (10 ^ 2)%Z with 100%Z.
  apply div_half_even_unique; [lia|].
  assert (Z.abs (c * (1 * P) - m * 100) * den = 100 * Z.abs (m * den - num * P))%Z
    as Heq by nia.
  nia.
Qed.

(** An amount written to the cent and below ten trillion comes back from
    the column as it was written. *)
Lemma Numeric_10_2_cents (d : Decimal) :
  (-2 <= expn d)%Z -> (Z.abs (cents d) < 10 ^ 15)%Z ->
  Numeric_10_2 d = mkDecimal (cents d) (-2).
Proof.
  intros He Hb. unfold Numeric_10_2, to_float, cents, rescale in *.
  replace (expn d - -2)%Z with (expn d + 2)%Z in * by lia.
  destruct (Z.leb_spec 0 (expn d)) as [Hpos|Hneg].
  - rewrite Z.pow_add_r in * by lia. change (10 ^ 2)%Z with 100%Z in *.
    apply to_decimal_nearest_double; [lia | lia |].
    change (2 ^ 45)%Z with 35184372088832%Z.
    change (10 ^ 15)%Z with 1000000000000000%Z in Hb. lia.
  - assert (expn d = -1 ∨ expn d = -2)%Z as [E | E] by lia; rewrite E in *;
      simpl in *; apply to_decimal_nearest_double; lia.
Qed.

(** ** Totals of a created order *)

Lemma cents_value (d : Decimal) :
  (-2 <= expn d)%Z -> (dec_value d == inject_Z (cents d) / 100)%Q.
Proof.
  intros He. unfold cents. rewrite <- (rescale_value d (-2)) by lia.
  change (inject_Z 10 ^ (-2))%Q with (/ 100)%Q. reflexivity.
Qed.

Lemma cents_mul_int (d : Decimal) (n : Z) :
  cents (dec_mul_int d n) = (cents d * n)%Z.
Proof.
  unfold cents, rescale, dec_mul_int. simpl.
  replace (expn d + 0 - -2)%Z with (expn d - -2)%Z by lia. ring.
Qed.

Lemma cents_nonneg (d : Decimal) :
  (0 <= coef d)%Z -> (-2 <= expn d)%Z -> (0 <= cents d)%Z.
Proof.
  intros Hc He. unfold cents, rescale.
  apply Z.mul_nonneg_nonneg; [done|]. apply Z.pow_nonneg. lia.
Qed.

Lemma submitted_cents_bound (l : list OrderItemCreate.t) :
  Forall priced_to_the_cent l ->
  (0 <= submitted_cents l)%Z
  ∧ Forall (fun d =>
      (0 <= cents (OrderItemCreate.unit_price d)
         <= cents (OrderItemCreate.unit_price d) * OrderItemCreate.quantity d)%Z
      ∧ (cents (OrderItemCreate.unit_price d) * OrderItemCreate.quantity d
         <= submitted_cents l)%Z) l.
Proof.
  induction 1 as [|d l (Hq & Hc & He) _ [IH0 IH]]; simpl; [by split|].
  pose proof (cents_nonneg _ Hc He) as Hn.
  split; [nia|]. constructor; [nia|].
  eapply Forall_impl; [exact IH|]. simpl. intros d' [? ?]. split; [done | nia].
Qed.

(** The item loop on prices written to the cent: the running total stays
    at two places and counts the hundredths of the lines. *)
Lemma create_items_cents pk l added total :
  Forall priced_to_the_cent l ->
  expn total = (-2)%Z ->
  ∃ total',
    create_items pk l added total = ((added ++ map (item_of pk) l)%list, total')
    ∧ expn total' = (-2)%Z
    ∧ coef total' = (coef total + submitted_cents l)%Z.
Proof.
  intros Hl. revert added total.
  induction Hl as [|d l (_ & _ & He) _ IH]; intros added total Ht; simpl.
  - exists total. rewrite app_nil_r. split; [done|]. split; [done | lia].
  - destruct (IH (added ++ [item_of pk d])%list
                 (dec_add total (dec_mul_int (OrderItemCreate.unit_price d)
                                             (OrderItemCreate.quantity d))))
      as (total' & Heq & He' & Hc').
    { unfold dec_add, dec_mul_int. simpl. lia. }
    exists total'. split; [|split; [done|]].
    + unfold item_of in Heq. rewrite Heq. by rewrite <- app_assoc.
    + rewrite Hc'.
      set (line := dec_mul_int (OrderItemCreate.unit_price d)
                               (OrderItemCreate.quantity d)).
      assert (Z.min (expn total) (expn line) = -2)%Z as Hmin
        by (unfold line, dec_mul_int; simpl; lia).
      assert (coef (dec_add total line) = coef total + cents line)%Z as ->.
      { unfold dec_add. cbv zeta. cbn [coef]. rewrite Hmin.
        unfold cents, rescale at 1. rewrite Ht. simpl. lia. }
      unfold line. rewrite cents_mul_int. lia.
Qed.

(** The items of such an order, as the table gives them back. *)
Lemma stored_item_cents pk d bound :
  priced_to_the_cent d ->
  (cents (OrderItemCreate.unit_price d) * OrderItemCreate.quantity d <= bound)%Z ->
  (bound < 10 ^ 15)%Z ->
  stored_item (item_of pk d)
  = mkOrderItem pk (OrderItemCreate.product_name d)
      (OrderItemCreate.product_sku d) (OrderItemCreate.quantity d)
      (mkDecimal (cents (OrderItemCreate.unit_price d)) (-2))
      (mkDecimal (cents (OrderItemCreate.unit_price d)
                  * OrderItemCreate.quantity d) (-2))
      (OrderItemCreate.product_description d).
Proof.
  intros (Hq & Hc & He) Hline Hb.
  pose proof (cents_nonneg _ Hc He) as Hn.
  unfold stored_item, item_of. simpl. f_equal.
  - apply Numeric_10_2_cents; [done | nia].
  - rewrite Numeric_10_2_cents, cents_mul_int; [done| |].
    + unfold dec_mul_int. simpl. lia.
    + rewrite cents_mul_int. nia.
Qed.

Lemma dec_value_cents (c : Z) :
  (dec_value (mkDecimal c (-2)) == inject_Z c / 100)%Q.
Proof.
  rewrite cents_value by (simpl; lia).
  unfold cents, rescale. simpl. by rewrite Z.mul_1_r.
Qed.

Lemma stored_items_ok pk (l : list OrderItemCreate.t) bound :
  Forall priced_to_the_cent l ->
  Forall (fun d => (cents (OrderItemCreate.unit_price d)
                    * OrderItemCreate.quantity d <= bound)%Z) l ->
  (bound < 10 ^ 15)%Z ->
  Forall line_ok (map stored_item (map (item_of pk) l))
  ∧ (items_sum (map stored_item (map (item_of pk) l))
     == inject_Z (submitted_cents l) / 100)%Q
  ∧ (submitted_sum l == inject_Z (submitted_cents l) / 100)%Q.
Proof.
  intros Hl Hlines Hb.
  induction Hl as [|d l Hd _ IH].
  - split; [constructor|]. split; reflexivity.
  - apply Forall_cons in Hlines as [Hline Hlines].
    destruct (IH Hlines) as (IHl & IHs & IHv).
    change (map stored_item (map (item_of pk) (d :: l)))
      with (stored_item (item_of pk d)
            :: map stored_item (map (item_of pk) l)).
    rewrite (stored_item_cents pk d bound Hd Hline Hb).
    split; [constructor; [reflexivity | exact IHl]|].
    destruct Hd as (_ & _ & He).
    change (submitted_cents (d :: l))
      with (cents (OrderItemCreate.unit_price d) * OrderItemCreate.quantity d
            + submitted_cents l)%Z.
    rewrite inject_Z_plus, inject_Z_mult.
    split.
    + match goal with
      | |- (items_sum (?it :: ?its) == _)%Q =>
          change (items_sum (it :: its))
            with (inject_Z (quantity it) * dec_value (unit_price it)
                  + items_sum its)%Q
      end.
      rewrite IHs. cbn [quantity unit_price]. rewrite dec_value_cents. field.
    + change (submitted_sum (d :: l))
        with (inject_Z (OrderItemCreate.quantity d)
              * dec_value (OrderItemCreate.unit_price d) + submitted_sum l)%Q.
      rewrite IHv, (cents_value _ He). field.
Qed.

(** C7, at a price below the cent.  Three units at 0.005: the request passes
    the schema ([unit_price >= 0], no bound on the places), the loop
    computes the line and the total as 0.015, and each amount then goes
    through its own [Numeric(10, 2)] column: the order read back has a
    unit price of 0.01, a line total of 0.01 and a total of 0.01, so the
    line total is not quantity times unit price and the total is not the
    sum over the items of quantity times unit price. *)
Theorem total_amount_sub_cent :
  ∃ o,
    create_order (at_age 0) (at_age 0) (at_age 0) false sub_cent alice ∅
    = (Ok (1, o), {[ 1 := o ]})
    ∧ total_amount o = mkDecimal 1 (-2)
    ∧ map (fun it => (quantity it, unit_price it, total_price it)) (items o)
      = [ (3, mkDecimal 1 (-2), mkDecimal 1 (-2)) ]
    ∧ ¬ (dec_value (total_amount o) == items_sum (items o))%Q
    ∧ ¬ Forall line_ok (items o)
    ∧ ¬ total_ok o.
Proof.
  eexists. split; [by vm_compute|].
  split; [reflexivity|]. split; [reflexivity|].
  assert (Hv : ¬ (dec_value (mkDecimal 1 (-2))
                  == items_sum [mkOrderItem 1 "washer" None 3 (mkDecimal 1 (-2))
                                  (mkDecimal 1 (-2)) None])%Q)
    by (by vm_compute).
  split; [exact Hv|]. split.
  - intros Hl. apply Forall_cons in Hl as [Hl _]. by vm_compute in Hl.
  - intros [Ht _]. by apply Hv.
Qed.

(** X23. For prices written to the cent the totals are exact.  When every
    submitted item has a quantity of at least 1 and a non-negative unit
    price with at most two places, and the lines sum to less than ten
    trillion, the order [create_order] stores has one item per submitted
    item, with the submitted quantity and price and a line total that is
    their product, and a total that is the sum over the items of quantity
    times unit price; [calculate_total] agrees with it.  Every later
    request of the service (field update, status change, cancellation)
    leaves the items and the total of every row as they were, so the
    equality keeps holding. *)
Theorem total_amount_correct :
  (∀ clock clock1 clock2 db_fails order_data user (st st' : Store) pk o,
     Forall priced_to_the_cent (OrderCreate.items order_data) ->
     (submitted_cents (OrderCreate.items order_data) < 10 ^ 15)%Z ->
     create_order clock clock1 clock2 db_fails order_data user st
     = (Ok (pk, o), st') ->
     st' !! pk = Some o
     ∧ total_ok o
     ∧ items o = map stored_item (map (item_of pk) (OrderCreate.items order_data))
     ∧ map quantity (items o)
       = map OrderItemCreate.quantity (OrderCreate.items order_data)
     ∧ (dec_value (total_amount o)
        == submitted_sum (OrderCreate.items order_data))%Q
     ∧ (dec_value (calculate_total o) == dec_value (total_amount o))%Q)
  ∧ (∀ (st : Store) k o o' clock db_fails order_id user,
       st !! k = Some o -> total_ok o ->
       (∀ p, snd (update_order clock db_fails order_id p user st) !! k = Some o'
             -> total_ok o')
       ∧ (∀ fmt new_status notes_ bypass,
            snd (update_order_status fmt clock db_fails order_id new_status
                   notes_ user bypass st) !! k = Some o' -> total_ok o')
       ∧ (∀ fmt,
            snd (cancel_order fmt clock db_fails order_id user st) !! k = Some o'
            -> total_ok o')).
Proof.
  split.
  - intros clock clock1 clock2 db_fails order_data user st st' pk o Hl Hb.
    unfold create_order.
    destruct (create_items_cents (next_id st) (OrderCreate.items order_data)
                [] Decimal_0_00 Hl eq_refl) as (total' & -> & He & Hc).
    destruct db_fails; [done|]. intros [= <- <- <-].
    simpl in Hc.
    destruct (submitted_cents_bound _ Hl) as [H0 Hlines].
    destruct (stored_items_ok (next_id st) (OrderCreate.items order_data)
                (submitted_cents (OrderCreate.items order_data)) Hl)
      as (Hok & Hsum & Hsub);
      [eapply Forall_impl; [exact Hlines|]; by intros d [_ ?] | done |].
    assert (Numeric_10_2 total' = mkDecimal (coef total') (-2)) as Ht.
    { rewrite Numeric_10_2_cents; unfold cents, rescale; rewrite ?He;
        simpl; rewrite ?Z.mul_1_r; [done | lia | lia]. }
    split; [apply lookup_insert_eq|]. cbn [total_amount items].
    rewrite Ht, Hc.
    assert (Hv : (dec_value (mkDecimal
                    (submitted_cents (OrderCreate.items order_data)) (-2))
                  == items_sum (map stored_item
                                  (map (item_of (next_id st))
                                     (OrderCreate.items order_data))))%Q)
      by (by rewrite Hsum, dec_value_cents).
    split; [by split|]. split; [done|].
    split.
    { rewrite !map_map. apply map_ext. by intros d. }
    split; [by rewrite Hsub, dec_value_cents|].
    rewrite calculate_total_value by done. cbn [total_amount items].
    by rewrite Hv.
  - intros st k o o' clock db_fails order_id user Ho Hok.
    split; [|split]; intros.
    + eapply total_ok_same_core; [|done]. by eapply update_order_same_core.
    + eapply total_ok_same_core; [|done].
      by eapply update_order_status_same_core.
    + eapply total_ok_same_core; [|done]. by eapply cancel_order_same_core.
Qed.

(** Two notebooks at 19.99 and a pen at 1.5: 41.48. *)
Lemma total_amount_correct_witness :
  ∃ pk o st',
    create_order (at_age 0) (at_age 0) (at_age 0) false two_lines alice ∅
    = (Ok (pk, o), st')
    ∧ st' !! pk = Some o
    ∧ total_ok o
    ∧ total_amount o = mkDecimal 4148 (-2).
Proof.
  eexists _, _, _. split; [by vm_compute|].
  destruct total_amount_correct as [H _].
  assert (Forall priced_to_the_cent (OrderCreate.items two_lines)) as Hp
    by (repeat constructor; by vm_compute).
  assert (submitted_cents (OrderCreate.items two_lines) < 10 ^ 15)%Z as Hb
    by (by vm_compute).
  destruct (H (at_age 0) (at_age 0) (at_age 0) false two_lines alice ∅ _ _ _
              Hp Hb eq_refl) as (Hrow & Hok & _).
  split; [exact Hrow|]. split; [exact Hok | reflexivity].
Defined.

(** ** The promotion passes *)

Section Passes.

Variable concurrent : Z -> Store -> Store.

Lemma store_at_reread_candidate cands st pk st_r :
  store_at_reread concurrent cands st pk = Some st_r -> pk ∈ cands.*1.
Proof.
  revert st. induction cands as [|[k o] rest IH]; intros st; simpl; [done|].
  case_bool_decide; [intros _; subst; apply list_elem_of_here|].
  intros Hr. apply list_elem_of_further. by eapply IH.
Qed.

(** The loop skips a candidate it re-reads in another status than
    pending: it goes on with the next one, and has assigned nothing. *)
Lemma candidate_loop_skip double_check now pk snapshot rest st dirty n row :
  concurrent pk st !! pk = Some row ->
  status row ≠ PENDING ->
  candidate_loop concurrent double_check now ((pk, snapshot) :: rest) st dirty n
  = candidate_loop concurrent double_check now rest (concurrent pk st) dirty n.
Proof.
  intros Hrow Hs. simpl. unfold refresh. rewrite Hrow.
  by rewrite (bool_decide_eq_false_2 _ Hs).
Qed.

(** The store the loop returns is the work of the concurrent
    transactions alone. *)
Lemma candidate_loop_store double_check now cands st dirty n :
  ∃ reached, reached `prefix_of` cands
    ∧ fst (candidate_loop concurrent double_check now cands st dirty n)
      = foldl (fun s c => concurrent (fst c) s) st reached.
Proof.
  revert st dirty n.
  induction cands as [|[k o] rest IH]; intros st dirty n; simpl.
  - exists []. by split.
  - assert (∀ d m, ∃ reached, reached `prefix_of` (k, o) :: rest
              ∧ fst (candidate_loop concurrent double_check now rest
                       (concurrent k st) d m)
                = foldl (fun s c => concurrent (fst c) s) st reached) as Hgo.
    { intros d m. destruct (IH (concurrent k st) d m) as (reached & Hp & ->).
      exists ((k, o) :: reached). split; [by apply prefix_cons | done]. }
    assert (∃ reached, reached `prefix_of` (k, o) :: rest
              ∧ concurrent k st
                = foldl (fun s c => concurrent (fst c) s) st reached) as Hstop.
    { exists [(k, o)]. split; [apply prefix_cons, prefix_nil | done]. }
    destruct (refresh k (concurrent k st)) as [order|e]; [|done].
    destruct (negb _); [apply Hgo|].
    destruct (localize IST (created_at order)) as [created|e]; [|done].
    destruct (_ && _); apply Hgo.
Qed.

(** The keys the loop assigned to are candidates it re-read as pending,
    and it counted them. *)
Lemma candidate_loop_dirty double_check now cands st dirty n st1 dirty' n' :
  NoDup cands.*1 ->
  candidate_loop concurrent double_check now cands st dirty n
  = (st1, Ok (dirty', n')) ->
  n' - n = Z.of_nat (length dirty') - Z.of_nat (length dirty)
  ∧ ∀ pk, pk ∈ dirty' ->
      pk ∈ dirty
      ∨ ∃ st_r row, store_at_reread concurrent cands st pk = Some st_r
                    ∧ st_r !! pk = Some row ∧ status row = PENDING.
Proof.
  revert st dirty n.
  induction cands as [|[k o] rest IH]; intros st dirty n Hnd; simpl.
  - intros [= <- <- <-]. split; [lia | by left].
  - apply NoDup_cons in Hnd as [Hk Hnd].
    assert (∀ d m,
              candidate_loop concurrent double_check now rest
                (concurrent k st) d m = (st1, Ok (dirty', n')) ->
              ∀ pk, pk ∈ dirty' ->
                pk ∈ d
                ∨ ∃ st_r row,
                    (if bool_decide (k = pk) then Some (concurrent k st)
                     else store_at_reread concurrent rest (concurrent k st) pk)
                    = Some st_r
                    ∧ st_r !! pk = Some row ∧ status row = PENDING) as Hgo.
    { intros d m Hloop pk Hpk.
      destruct (IH _ _ _ Hnd Hloop) as [_ Hin].
      destruct (Hin pk Hpk) as [?|(st_r & row & Hr & Hrow & Hs)]; [by left|].
      right. exists st_r, row. case_bool_decide; [|done]. subst.
      by apply store_at_reread_candidate in Hr. }
    unfold refresh.
    destruct (concurrent k st !! k) as [order|] eqn:Hrow; [|done].
    case_bool_decide as Hs; simpl.
    + destruct (localize IST (created_at order)) as [created|e]; [|done].
      destruct (_ && _).
      * intros Hloop. split; [by destruct (IH _ _ _ Hnd Hloop)|].
        by apply (Hgo dirty n).
      * intros Hloop. split.
        { destruct (IH _ _ _ Hnd Hloop) as [Hn _].
          rewrite length_app in Hn. simpl in Hn. lia. }
        intros pk Hpk.
        destruct (Hgo _ _ Hloop pk Hpk) as [Hin|?]; [|by right].
        apply elem_of_app in Hin as [?|Hin]; [by left|].
        apply list_elem_of_singleton in Hin as ->. right.
        exists (concurrent k st), order.
        by rewrite bool_decide_eq_true_2.
    + intros Hloop. split; [by destruct (IH _ _ _ Hnd Hloop)|].
      by apply (Hgo dirty n).
Qed.

(** The flush writes the rows it was given, and no other. *)
Lemma flush_promotions_other now dirty (st st2 : Store) pk :
  flush_promotions now dirty st = Ok st2 -> pk ∉ dirty -> st2 !! pk = st !! pk.
Proof.
  revert st. induction dirty as [|k dirty IH]; intros st; simpl.
  - by intros [= <-].
  - destruct (st !! k) as [row|] eqn:Hrow; [|done].
    intros Hf Hpk. apply not_elem_of_cons in Hpk as [? ?].
    rewrite (IH _ Hf) by done. by apply lookup_insert_ne.
Qed.

Lemma query_pending_NoDup cutoff st : NoDup (query_pending cutoff st).*1.
Proof.
  unfold query_pending.
  pose proof (NoDup_fst_map_to_list st) as Hnd.
  induction (map_to_list st) as [|[k o] l IH]; simpl; [constructor|].
  simpl in Hnd. apply NoDup_cons in Hnd as [Hk Hnd].
  destruct (_ && _); [|by apply IH].
  simpl. apply NoDup_cons. split; [|by apply IH].
  intros Hin. apply Hk.
  apply list_elem_of_fmap in Hin as ([k' o'] & -> & Hin).
  apply list_elem_of_fmap. exists (k', o'). split; [done|].
  apply list_elem_of_In. apply list_elem_of_In in Hin.
  by apply List.filter_In in Hin as [? _].
Qed.

(** What the commit of a pass can change: only rows the loop assigned
    to. *)
Lemma commit_promotions_other db_fails now dirty (st st2 : Store) pk :
  commit_promotions db_fails now dirty st = Ok st2 ->
  pk ∉ dirty -> st2 !! pk = st !! pk.
Proof.
  unfold commit_promotions. destruct db_fails; [done|].
  apply flush_promotions_other.
Qed.

End Passes.

(** C6, as amended.  In the periodic pass and in the manual trigger alike, a
    batch candidate that the pass re-reads in another status than pending is
    skipped: the loop goes on with the next candidate without raising, and
    the pass writes nothing to that row, which ends the pass as the
    concurrent transactions left it (the store the loop returns is the
    work of those transactions alone). *)
Theorem worker_skips_changed_orders (concurrent : Z -> Store -> Store)
    (clock clock1 : Z) (db_fails : bool) (st st_r : Store) (pk : Z)
    (row : Order) :
  let now := datetime_now IST clock in
  let pending_orders :=
    query_pending (replace_tzinfo (dt_minus now (minutes 5)) None) st in
  store_at_reread concurrent pending_orders st pk = Some st_r ->
  st_r !! pk = Some row ->
  status row ≠ PENDING ->
  _process_pending_orders concurrent clock db_fails st !! pk
  = fst (candidate_loop concurrent true now pending_orders st [] 0) !! pk
  ∧ snd (update_all_pending_orders_now concurrent clock clock1 db_fails st) !! pk
    = fst (candidate_loop concurrent false (datetime_now IST clock1)
             pending_orders st [] 0) !! pk
  ∧ (∀ double_check t, ∃ reached,
       reached `prefix_of` pending_orders
       ∧ fst (candidate_loop concurrent double_check t pending_orders st [] 0)
         = foldl (fun s c => concurrent (fst c) s) st reached)
  ∧ (∀ double_check t snapshot rest s dirty n r,
       concurrent pk s !! pk = Some r -> status r ≠ PENDING ->
       candidate_loop concurrent double_check t ((pk, snapshot) :: rest) s dirty n
       = candidate_loop concurrent double_check t rest (concurrent pk s) dirty n).
Proof.
  intros now pending_orders Hr Hrow Hs.
  assert (Hclean : ∀ double_check t st1 dirty n,
            candidate_loop concurrent double_check t pending_orders st [] 0
            = (st1, Ok (dirty, n)) -> pk ∉ dirty).
  { intros double_check t st1 dirty n Hloop Hin.
    destruct (candidate_loop_dirty _ _ _ _ _ _ _ _ _ _
                (query_pending_NoDup _ _) Hloop) as [_ Hd].
    destruct (Hd pk Hin) as [?|(st_r' & row' & Hr' & Hrow' & Hs')];
      [by apply not_elem_of_nil in H|].
    fold pending_orders in Hr'. rewrite Hr in Hr'. injection Hr' as <-.
    rewrite Hrow in Hrow'. by simplify_eq. }
  split; [|split; [|split]].
  - unfold _process_pending_orders. fold now. fold pending_orders.
    destruct (candidate_loop concurrent true now pending_orders st [] 0)
      as [st1 [[dirty n]|e]] eqn:Hloop; [|done].
    destruct (0 <? n)%Z; [|done].
    destruct (commit_promotions _ _ _ _) as [st2|e] eqn:Hc; [|done].
    simpl. eapply commit_promotions_other; [done|]. by eapply Hclean.
  - unfold update_all_pending_orders_now. fold now. fold pending_orders.
    destruct (candidate_loop concurrent false _ pending_orders st [] 0)
      as [st1 [[dirty n]|e]] eqn:Hloop; [|done].
    destruct (0 <? n)%Z; [|done].
    destruct (commit_promotions _ _ _ _) as [st2|e] eqn:Hc; [|done].
    simpl. eapply commit_promotions_other; [done|]. by eapply Hclean.
  - intros. apply candidate_loop_store.
  - intros. by eapply candidate_loop_skip.
Qed.

(** The order of the sample store is ten minutes old when a pass starts,
    and a vendor cancels it before the pass re-reads it: the periodic pass
    and the manual trigger both leave it cancelled, and the trigger
    returns 0 without raising. *)
Lemma worker_skips_changed_orders_witness :
  let clock := at_age (minutes 10) in
  status <$> _process_pending_orders (cancelled_meanwhile clock) clock false
               pending_store !! 1 = Some CANCELLED
  ∧ status <$> snd (update_all_pending_orders_now (cancelled_meanwhile clock)
                      clock clock false pending_store) !! 1 = Some CANCELLED
  ∧ fst (update_all_pending_orders_now (cancelled_meanwhile clock)
           clock clock false pending_store) = Ok 0.
Proof.
  intros clock.
  destruct (worker_skips_changed_orders (cancelled_meanwhile clock) clock clock
              false pending_store
              (cancelled_meanwhile clock 1 pending_store) 1
              (set_updated_at (stored (get_ist_now clock))
                 (cancelled UserRole_value vendor
                    (sample_order 1 PENDING None t0))))
    as (Hp & Hm & _ & _); [by vm_compute | by vm_compute | done |].
  rewrite Hp, Hm. by vm_compute.
Defined.

(** ** The manual trigger, running alone *)

Lemma query_pending_elem cutoff (st : Store) pk o :
  (pk, o) ∈ query_pending cutoff st ↔ st !! pk = Some o ∧ due cutoff o = true.
Proof.
  unfold query_pending. rewrite list_elem_of_In, List.filter_In.
  rewrite <- list_elem_of_In, elem_of_map_to_list. done.
Qed.

Lemma query_pending_key cutoff (st : Store) pk :
  pk ∈ (query_pending cutoff st).*1
  ↔ ∃ o, st !! pk = Some o ∧ due cutoff o = true.
Proof.
  rewrite list_elem_of_fmap. split.
  - intros ([k o] & -> & Hin). exists o. by apply query_pending_elem.
  - intros (o & Ho). exists (pk, o). split; [done|]. by apply query_pending_elem.
Qed.

(** Alone, the loop of the manual trigger assigns to every candidate. *)
Lemma candidate_loop_quiet now cands (st : Store) dirty n :
  (∀ pk o, (pk, o) ∈ cands ->
     ∃ row, st !! pk = Some row ∧ status row = PENDING
            ∧ tzinfo (created_at row) = None) ->
  candidate_loop quiet false now cands st dirty n
  = (st, Ok ((dirty ++ cands.*1)%list, n + Z.of_nat (length cands))).
Proof.
  revert dirty n. induction cands as [|[k o] rest IH]; intros dirty n Hc; simpl.
  - by rewrite app_nil_r, Z.add_0_r.
  - destruct (Hc k o) as (row & Hrow & Hs & Htz); [apply list_elem_of_here|].
    unfold quiet at 1 2. unfold refresh, localize. rewrite Hrow, Htz.
    rewrite (bool_decide_eq_true_2 _ Hs). simpl.
    rewrite IH
      by (intros pk' o' ?; apply (Hc pk' o'); by apply list_elem_of_further).
    rewrite <- app_assoc. simpl. do 3 f_equal. lia.
Qed.

(** The flush of keys that are all in the store promotes exactly them. *)
Lemma flush_promotions_all now dirty (st : Store) :
  NoDup dirty ->
  (∀ pk, pk ∈ dirty -> is_Some (st !! pk)) ->
  ∃ st2, flush_promotions now dirty st = Ok st2
    ∧ ∀ pk, st2 !! pk = if bool_decide (pk ∈ dirty)
                        then promoted now <$> st !! pk else st !! pk.
Proof.
  revert st. induction dirty as [|k dirty IH]; intros st Hnd Hin.
  - exists st. split; [done|]. intros pk.
    by rewrite bool_decide_eq_false_2 by apply not_elem_of_nil.
  - simpl flush_promotions. apply NoDup_cons in Hnd as [Hk Hnd].
    destruct (Hin k) as [row Hrow]; [apply list_elem_of_here|]. rewrite Hrow.
    destruct (IH (<[k := promoted now row]> st) Hnd) as (st2 & Hf & Hst2).
    { intros pk Hpk. rewrite lookup_insert_ne by (intros ->; done).
      apply Hin. by apply list_elem_of_further. }
    exists st2. split; [exact Hf|]. intros pk. rewrite Hst2.
    destruct (decide (pk = k)) as [-> | Hne].
    + rewrite (bool_decide_eq_false_2 _ Hk), lookup_insert_eq, Hrow.
      by rewrite bool_decide_eq_true_2 by apply list_elem_of_here.
    + rewrite lookup_insert_ne by done.
      case_bool_decide as H1; case_bool_decide as H2; try done.
      * exfalso. apply H2. by apply list_elem_of_further.
      * exfalso. apply H1. by apply elem_of_cons in H2 as [? | ?].
Qed.

(** What the manual trigger does when nothing else runs and the store
    works: it promotes exactly the rows of the batch query, that is, the
    pending orders created at or before the cutoff, five minutes back from
    its first reading of the clock; it stamps them with its second reading;
    it leaves every other row as it is; and it returns how many rows it
    promoted. *)
Lemma update_all_pending_orders_now_alone clock0 clock1 (st : Store) :
  (∀ pk o, st !! pk = Some o -> tzinfo (created_at o) = None) ->
  let cutoff :=
    replace_tzinfo (dt_minus (datetime_now IST clock0) (minutes 5)) None in
  let now_naive := replace_tzinfo (datetime_now IST clock1) None in
  let r := update_all_pending_orders_now quiet clock0 clock1 false st in
  fst r = Ok (Z.of_nat (length (query_pending cutoff st)))
  ∧ ∀ pk, snd r !! pk
          = (fun o => if due cutoff o then promoted now_naive o else o)
            <$> st !! pk.
Proof.
  intros Hnaive cutoff now_naive. cbv zeta.
  unfold update_all_pending_orders_now. fold cutoff. fold now_naive.
  rewrite candidate_loop_quiet, Z.add_0_l; simpl.
  2:{ intros pk o [Ho Hd]%query_pending_elem. exists o.
      apply andb_prop in Hd as [Hs%bool_decide_eq_true _]. eauto. }
  assert (Hrows : ∀ pk, (st !! pk
            = (fun o => if due cutoff o then promoted now_naive o else o)
              <$> st !! pk) ∨ pk ∈ (query_pending cutoff st).*1).
  { intros pk. destruct (st !! pk) as [o|] eqn:Ho; [|by left]. simpl.
    destruct (due cutoff o) eqn:Hd; [|by left].
    right. apply query_pending_key. by exists o. }
  destruct (Z.ltb_spec 0 (Z.of_nat (length (query_pending cutoff st))))
    as [Hpos|Hzero]; simpl.
  - destruct (flush_promotions_all now_naive (query_pending cutoff st).*1 st)
      as (st2 & Hf & Hst2).
    { apply query_pending_NoDup. }
    { intros pk (o & Ho & _)%query_pending_key. by rewrite Ho. }
    unfold commit_promotions. rewrite Hf. simpl. split; [done|].
    intros pk. rewrite Hst2. case_bool_decide as Hin.
    + apply query_pending_key in Hin as (o & Ho & Hd). rewrite Ho. simpl.
      by rewrite Hd.
    + by destruct (Hrows pk).
  - split; [done|]. intros pk. destruct (Hrows pk) as [?|Hin]; [done|].
    destruct (query_pending cutoff st); [|simpl in Hzero; lia].
    by apply not_elem_of_nil in Hin.
Qed.

(** The sweep of the specification's example: it returns 3 and leaves the
    two other orders untouched. *)
Lemma update_all_pending_orders_now_example :
  let r := update_all_pending_orders_now quiet (at_age (minutes 10))
             (at_age (minutes 10)) false five_orders in
  fst r = Ok 3
  ∧ status <$> snd r !! 1 = Some PROCESSING
  ∧ status <$> snd r !! 2 = Some PROCESSING
  ∧ status <$> snd r !! 3 = Some PROCESSING
  ∧ snd r !! 4 = five_orders !! 4
  ∧ snd r !! 5 = five_orders !! 5.
Proof. by vm_compute. Qed.

(** C5.  The manual trigger goes beyond "more than 5 minutes": the pending
    order of the sample store is exactly five minutes old, the trigger
    promotes it and returns 1, while the periodic pass, which re-validates
    the age, leaves it pending. *)
Theorem sweep_now_promotes_at_five_minutes :
  let clock := at_age (minutes 5) in
  let r := update_all_pending_orders_now quiet clock clock false pending_store in
  order_age clock (sample_order 1 PENDING None t0) = minutes 5
  ∧ fst r = Ok 1
  ∧ status <$> snd r !! 1 = Some PROCESSING
  ∧ status <$> _process_pending_orders quiet clock false pending_store !! 1
    = Some PENDING.
Proof. by vm_compute. Qed.

(** C6, as the specification words it, fails: the re-read does not cover
    a transition that commits after the pass has re-read the order and
    before the pass commits.  The pass reads the order 2, still pending,
    then a vendor cancels it while the pass goes on with the order 1; the
    commit of the pass writes [processing] over the cancellation, in the
    periodic pass and in the manual trigger alike, and the trigger counts
    the order among those it updated. *)
Lemma late_cancellation_overwritten :
  let clock := at_age (minutes 10) in
  let now := datetime_now IST clock in
  let pending_orders :=
    query_pending (replace_tzinfo (dt_minus now (minutes 5)) None) two_pending in
  pending_orders.*1 = [2; 1]
  ∧ status <$> fst (candidate_loop (cancelled_late clock) true now
                      pending_orders two_pending [] 0) !! 2 = Some CANCELLED
  ∧ status <$> _process_pending_orders (cancelled_late clock) clock false
                 two_pending !! 2 = Some PROCESSING
  ∧ status <$> fst (candidate_loop (cancelled_late clock) false now
                      pending_orders two_pending [] 0) !! 2 = Some CANCELLED
  ∧ fst (update_all_pending_orders_now (cancelled_late clock) clock clock false
           two_pending) = Ok 2
  ∧ status <$> snd (update_all_pending_orders_now (cancelled_late clock) clock
                      clock false two_pending) !! 2 = Some PROCESSING.
Proof. by vm_compute. Qed.

(** ** The passes and the other statuses *)

Lemma candidate_loop_quiet_store double_check now cands (st : Store) dirty n :
  fst (candidate_loop quiet double_check now cands st dirty n) = st.
Proof.
  destruct (candidate_loop_store quiet double_check now cands st dirty n)
    as (reached & _ & ->).
  by induction reached.
Qed.

Lemma store_at_reread_quiet cands (st st_r : Store) pk :
  store_at_reread quiet cands st pk = Some st_r -> st_r = st.
Proof.
  induction cands as [|[k o] rest IH]; simpl; [done|].
  case_bool_decide; [by intros [= <-] | exact IH].
Qed.

(** A pass that runs alone, periodic or manual, writes no row whose status
    is not pending; a cancelled or refunded order in particular stays as
    it is. *)
Lemma passes_keep_other_statuses clock clock1 db_fails (st : Store) pk o :
  st !! pk = Some o ->
  status o ≠ PENDING ->
  _process_pending_orders quiet clock db_fails st !! pk = Some o
  ∧ snd (update_all_pending_orders_now quiet clock clock1 db_fails st) !! pk
    = Some o.
Proof.
  intros Ho Hs.
  assert (Hclean : ∀ double_check t cutoff st1 dirty n,
            candidate_loop quiet double_check t (query_pending cutoff st) st [] 0
            = (st1, Ok (dirty, n)) -> st1 = st ∧ pk ∉ dirty).
  { intros double_check t cutoff st1 dirty n Hloop. split.
    - pose proof (candidate_loop_quiet_store double_check t
                    (query_pending cutoff st) st [] 0) as Hst.
      by rewrite Hloop in Hst.
    - intros Hin.
      destruct (candidate_loop_dirty _ _ _ _ _ _ _ _ _ _
                  (query_pending_NoDup _ _) Hloop) as [_ Hd].
      destruct (Hd pk Hin) as [Hnil|(st_r & row & Hr & Hrow & Hs')];
        [by apply not_elem_of_nil in Hnil|].
      apply store_at_reread_quiet in Hr as ->. by simplify_eq. }
  split.
  - unfold _process_pending_orders.
    destruct (candidate_loop quiet true _ _ st [] 0)
      as [st1 [[dirty n]|e]] eqn:Hloop.
    + destruct (Hclean _ _ _ _ _ _ Hloop) as [-> Hpk].
      destruct (0 <? n)%Z; [|done].
      destruct (commit_promotions _ _ _ _) as [st2|e] eqn:Hc; [|done].
      by rewrite (commit_promotions_other _ _ _ _ _ _ Hc Hpk).
    + pose proof (candidate_loop_quiet_store true
                    (datetime_now IST clock)
                    (query_pending
                       (replace_tzinfo
                          (dt_minus (datetime_now IST clock) (minutes 5)) None)
                       st) st [] 0) as Hst.
      rewrite Hloop in Hst. simpl in Hst. by subst.
  - unfold update_all_pending_orders_now.
    destruct (candidate_loop quiet false _ _ st [] 0)
      as [st1 [[dirty n]|e]] eqn:Hloop.
    + destruct (Hclean _ _ _ _ _ _ Hloop) as [-> Hpk].
      destruct (0 <? n)%Z; [|done].
      destruct (commit_promotions _ _ _ _) as [st2|e] eqn:Hc; [|done].
      simpl. by rewrite (commit_promotions_other _ _ _ _ _ _ Hc Hpk).
    + pose proof (candidate_loop_quiet_store false
                    (datetime_now IST clock1)
                    (query_pending
                       (replace_tzinfo
                          (dt_minus (datetime_now IST clock) (minutes 5)) None)
                       st) st [] 0) as Hst.
      rewrite Hloop in Hst. simpl in Hst. by subst.
Qed.

(** ** The transition table *)

(** X1. The table has no cycle: a legal transition raises the rank of the
    status, and so does every chain of legal transitions; no status is
    reached again once left. *)
Theorem transitions_raise_rank (s s' : OrderStatus) :
  tc edge s s' -> (status_rank s < status_rank s')%Z ∧ s ≠ s'.
Proof.
  assert (Hstep : ∀ a b, edge a b -> (status_rank a < status_rank b)%Z)
    by (intros [] []; unfold edge; by vm_compute).
  intros Htc.
  assert (status_rank s < status_rank s')%Z as Hlt.
  { induction Htc as [a b Hab | a b c Hab _ IH].
    - by apply Hstep.
    - apply Hstep in Hab. lia. }
  split; [done|]. intros ->. lia.
Qed.

(** pending -> processing -> shipped *)
Lemma transitions_raise_rank_witness :
  (status_rank PENDING < status_rank SHIPPED)%Z ∧ PENDING ≠ SHIPPED.
Proof.
  apply transitions_raise_rank.
  apply (tc_l _ PENDING PROCESSING SHIPPED); [reflexivity|].
  apply tc_once. reflexivity.
Defined.

(** ** update_order_status and cancel_order, decided *)



Arguments commit_order : simpl never.











(** ** create_order *)





(** X5. An order just created is read back by its creator and by a vendor
    or an admin, and is refused with 403 to any other customer. *)
Theorem create_then_get (clock clock1 clock2 : Z) (order_data : OrderCreate.t)
    (user reader : User) (st st' : Store) (pk : Z) (o : Order) :
  create_order clock clock1 clock2 false order_data user st
  = (Ok (pk, o), st') ->
  get_order_by_id pk user st' = Ok (Some o)
  ∧ (role reader ≠ CUSTOMER -> get_order_by_id pk reader st' = Ok (Some o))
  ∧ (role reader = CUSTOMER -> id reader ≠ id user ->
     get_order_by_id pk reader st' = Raise (HTTPException 403 "Access denied")).
Proof.
  unfold create_order. destruct (create_items _ _ _ _) as [its total].
  intros [= <- <- <-].
  rewrite !get_order_by_id_eq, lookup_insert_eq. simpl.
  split; [|split].
  - by rewrite (bool_decide_eq_true_2 (id user = id user)), andb_false_r.
  - intros Hr. by rewrite (bool_decide_eq_false_2 _ Hr).
  - intros Hr Hne. rewrite (bool_decide_eq_true_2 _ Hr).
    by rewrite (bool_decide_eq_false_2 (id user = id reader))
      by (intros Heq; by apply Hne).
Qed.

Lemma create_then_get_witness :
  ∃ pk o st',
    create_order (at_age 0) (at_age 0) (at_age 0) false two_lines alice
      pending_store = (Ok (pk, o), st')
    ∧ get_order_by_id pk alice st' = Ok (Some o)
    ∧ get_order_by_id pk vendor st' = Ok (Some o)
    ∧ get_order_by_id pk bob st' = Raise (HTTPException 403 "Access denied").
Proof.
  eexists _, _, _. split; [by vm_compute|].
  destruct (create_then_get (at_age 0) (at_age 0) (at_age 0) two_lines alice
              vendor pending_store _ _ _ eq_refl) as (Hown & Hstaff & _).
  destruct (create_then_get (at_age 0) (at_age 0) (at_age 0) two_lines alice
              bob pending_store _ _ _ eq_refl) as (_ & _ & Hother).
  split; [exact Hown|]. split; [by apply Hstaff | by apply Hother].
Defined.

(** X6. The items count of a created order is the sum of the submitted
    quantities, and at least the number of items when every quantity is at
    least 1, as the request schema demands. *)
Theorem created_items_count (clock clock1 clock2 : Z)
    (order_data : OrderCreate.t) (user : User) (st st' : Store) (pk : Z)
    (o : Order) :
  create_order clock clock1 clock2 false order_data user st
  = (Ok (pk, o), st') ->
  items_count o
  = fold_right (fun d acc => OrderItemCreate.quantity d + acc)%Z 0%Z
      (OrderCreate.items order_data)
  ∧ (Forall (fun d => 1 <= OrderItemCreate.quantity d)%Z
       (OrderCreate.items order_data) ->
     (Z.of_nat (length (items o)) <= items_count o)%Z).
Proof.
  unfold create_order.
  destruct (create_items_spec (next_id st) (OrderCreate.items order_data)
              [] Decimal_0_00) as (total' & -> & _).
  intros [= <- <- <-]. unfold items_count. simpl.
  induction (OrderCreate.items order_data) as [|d l [IH1 IH2]]; simpl.
  - split; [done | lia].
  - split; [by rewrite IH1|].
    intros [Hd Hl]%Forall_cons. specialize (IH2 Hl). lia.
Qed.

Lemma created_items_count_witness :
  ∃ pk o st',
    create_order (at_age 0) (at_age 0) (at_age 0) false two_lines alice ∅
    = (Ok (pk, o), st')
    ∧ items_count o = 3%Z
    ∧ (Z.of_nat (length (items o)) <= items_count o)%Z.
Proof.
  eexists _, _, _. split; [by vm_compute|].
  destruct (created_items_count (at_age 0) (at_age 0) (at_age 0) two_lines
              alice ∅ _ _ _ eq_refl) as [Hsum Hge].
  split; [exact Hsum|]. apply Hge. repeat constructor; by vm_compute.
Defined.

(** ** update_order *)

Lemma update_order_eq clock db_fails order_id p user (st : Store) o :
  st !! order_id = Some o ->
  may_update user = true ->
  update_order clock db_fails order_id p user st
  = match commit_order clock db_fails order_id o (patched p o) st with
    | Ok st' =>
        match st' !! order_id with
        | Some o' => (Ok o', st')
        | None => (Raise (HTTPException 500 "Failed to update order"), st')
        end
    | Raise _ => (Raise (HTTPException 500 "Failed to update order"), st)
    end.
Proof.
  intros Ho M. unfold update_order, may_update in *.
  rewrite get_order_by_id_eq, Ho. fold (patched p).
  destruct (role user); simpl in *; done.
Qed.

Lemma update_order_customer clock db_fails order_id p user (st : Store) o :
  st !! order_id = Some o ->
  role user = CUSTOMER ->
  update_order clock db_fails order_id p user st
  = (Raise (HTTPException 403 "Access denied"), st).
Proof.
  intros Ho Hr. unfold update_order.
  rewrite get_order_by_id_eq, Ho, Hr. simpl.
  by case_bool_decide.
Qed.

Lemma may_update_spec user : may_update user = true ↔ role user ≠ CUSTOMER.
Proof. unfold may_update. case_bool_decide; naive_solver. Qed.



(** X8. A patch by a vendor or an admin that sets [customer_name] or
    [shipping_address] to null is not refused as a bad request: the flush
    fails on the [nullable=False] column and the answer is 500 "Failed to
    update order"; nothing is written. *)
Theorem update_order_null_rejected (clock : Z) (db_fails : bool) (order_id : Z)
    (p : OrderUpdate.t) (user : User) (st : Store) (o : Order) :
  st !! order_id = Some o ->
  flush_ok o = true ->
  role user ≠ CUSTOMER ->
  OrderUpdate.customer_name p = Some None
  ∨ OrderUpdate.shipping_address p = Some None ->
  update_order clock db_fails order_id p user st
  = (Raise (HTTPException 500 "Failed to update order"), st).
Proof.
  intros Ho Hf Hm%may_update_spec Hnull.
  rewrite (update_order_eq _ _ _ _ _ _ _ Ho Hm).
  destruct (patched_fields p o) as (Hn & _ & Ha & _).
  assert (flush_ok (patched p o) = false) as Hbad.
  { unfold flush_ok. destruct Hnull as [Hp|Hp]; rewrite Hp in *; simpl in *.
    - rewrite Hn. simpl. done.
    - rewrite Ha. simpl. by rewrite !andb_false_r. }
  assert (o ≠ patched p o) as Hchg by (intros Heq; congruence).
  unfold commit_order. destruct db_fails; [done|].
  by rewrite (bool_decide_eq_false_2 _ Hchg), Hbad.
Qed.

Lemma update_order_null_rejected_witness :
  update_order (at_age 0) false 1
    (OrderUpdate.mk (Some None) None None None) vendor pending_store
  = (Raise (HTTPException 500 "Failed to update order"), pending_store).
Proof.
  apply (update_order_null_rejected (at_age 0) false 1
           (OrderUpdate.mk (Some None) None None None) vendor pending_store
           (sample_order 1 PENDING None t0));
    [by vm_compute | by vm_compute | by vm_compute | by left].
Defined.

Lemma patched_again p o t :
  patched p (set_updated_at t (patched p o)) = set_updated_at t (patched p o).
Proof. destruct p as [[?|] [?|] [?|] [?|]]; by destruct o. Qed.

(** X9. Sending the same patch again is a no-op: when [update_order] has
    succeeded, repeating it on the resulting store, at any later time,
    returns the same order and leaves the store, its modification time
    included, as the first call left it. *)
Theorem update_order_repeated (clock clock' : Z) (db_fails : bool)
    (order_id : Z) (p : OrderUpdate.t) (user : User) (st : Store) (o1 : Order) :
  fst (update_order clock db_fails order_id p user st) = Ok o1 ->
  let st1 := snd (update_order clock db_fails order_id p user st) in
  update_order clock' false order_id p user st1 = (Ok o1, st1).
Proof.
  intros Hok st1.
  pose proof (update_order_outcome clock db_fails order_id p user st) as Hout.
  cbv zeta in Hout. fold st1 in Hout.
  destruct Hout as [[_ [e He]]|(o & t & Ho & _ & Hf & Hrow & _)];
    [congruence|].
  rewrite Hf in Hok. injection Hok as <-.
  assert (may_update user = true) as Hm.
  { destruct (may_update user) eqn:M; [done|].
    assert (role user = CUSTOMER) as Hr
      by (unfold may_update in M; by case_bool_decide).
    rewrite (update_order_customer _ _ _ _ _ _ _ Ho Hr) in Hf. discriminate. }
  rewrite (update_order_eq _ _ _ _ _ _ _ Hrow Hm), patched_again.
  unfold commit_order. by rewrite bool_decide_eq_true_2, Hrow.
Qed.

(** A vendor sends the same change of address twice, a minute apart. *)
Lemma update_order_repeated_witness :
  ∃ o1 st1,
    update_order (at_age 0) false 1
      (OrderUpdate.mk None None (Some (Some "2 Side Street")) None)
      vendor pending_store = (Ok o1, st1)
    ∧ update_order (at_age (minutes 1)) false 1
        (OrderUpdate.mk None None (Some (Some "2 Side Street")) None)
        vendor st1 = (Ok o1, st1).
Proof.
  eexists _, _. split; [by vm_compute|].
  apply (update_order_repeated (at_age 0) (at_age (minutes 1)) false 1
           (OrderUpdate.mk None None (Some (Some "2 Side Street")) None)
           vendor pending_store).
  by vm_compute.
Defined.

(** ** get_orders and get_order_count *)

#[global] Instance newer_first_total : Total newer_first.
Proof. intros a b. unfold newer_first. lia. Qed.

#[global] Instance newer_first_trans : Transitive newer_first.
Proof. intros a b c. unfold newer_first. lia. Qed.

Lemma selected_elem user status_ (st : Store) pk o :
  (pk, o) ∈ selected user status_ st
  ↔ st !! pk = Some o ∧ visible_to user (pk, o) ∧ has_status status_ (pk, o).
Proof.
  unfold selected. rewrite !list_elem_of_filter, elem_of_map_to_list. tauto.
Qed.

Lemma selected_NoDup user status_ (st : Store) :
  NoDup (selected user status_ st).*1.
Proof.
  unfold selected.
  eapply sublist_NoDup; [apply (NoDup_fst_map_to_list st)|].
  apply fmap_sublist. etrans; apply sublist_filter.
Qed.

Lemma get_orders_eq user skip limit status_ st :
  (0 <= limit)%Z ->
  get_orders user skip limit status_ st
  = take (Z.to_nat limit)
      (drop (Z.to_nat skip) (merge_sort newer_first (selected user status_ st))).
Proof.
  intros Hl. unfold get_orders.
  by destruct (Z.ltb_spec limit 0); [lia|].
Qed.

Lemma get_orders_sublist user skip limit status_ st :
  get_orders user skip limit status_ st
  `sublist_of` merge_sort newer_first (selected user status_ st).
Proof.
  unfold get_orders. fold (selected user status_ st).
  destruct (limit <? 0)%Z;
    [apply sublist_drop | etrans; [apply sublist_take | apply sublist_drop]].
Qed.

(** X10. Every order [get_orders] returns is a row of the store that
    passes the status filter and, for a customer, belongs to the customer;
    no order is returned twice; the orders come newest first; and there
    are at most [limit] of them, for a limit that is not negative. *)
Theorem get_orders_sound (user : User) (skip limit : Z)
    (status_ : option OrderStatus) (st : Store) :
  let l := get_orders user skip limit status_ st in
  (∀ pk o, (pk, o) ∈ l ->
     st !! pk = Some o
     ∧ (role user = CUSTOMER -> user_id o = id user)
     ∧ (∀ s, status_ = Some s -> status o = s))
  ∧ NoDup l.*1
  ∧ StronglySorted newer_first l
  ∧ ((0 <= limit)%Z -> (List.length l <= Z.to_nat limit)%nat).
Proof.
  intros l. pose proof (get_orders_sublist user skip limit status_ st) as Hsub.
  fold l in Hsub. split; [|split; [|split]].
  - intros pk o Hin.
    assert ((pk, o) ∈ selected user status_ st) as Hsel.
    { rewrite <- (merge_sort_Permutation newer_first).
      by eapply elem_of_sublist. }
    apply selected_elem in Hsel as (Hrow & Hvis & Hst).
    split; [done|]. split; [exact Hvis|].
    intros s ->. exact Hst.
  - eapply sublist_NoDup; [|by apply fmap_sublist].
    rewrite (merge_sort_Permutation newer_first). apply selected_NoDup.
  - unfold l, get_orders. fold (selected user status_ st).
    pose proof (StronglySorted_merge_sort newer_first
                  (selected user status_ st)) as Hs.
    rewrite <- (take_drop (Z.to_nat skip)) in Hs.
    apply StronglySorted_app_1_r in Hs.
    destruct (limit <? 0)%Z; [done|].
    rewrite <- (take_drop (Z.to_nat limit)) in Hs.
    by apply StronglySorted_app_1_l in Hs.
  - intros Hl. unfold l. rewrite get_orders_eq, length_take by done. lia.
Qed.

(** X11. [get_order_count] is the number of orders [get_orders] selects
    before paging: a page holds [limit] orders, or what is left of the
    count after [skip] when that is less. *)
Theorem get_orders_count (user : User) (skip limit : Z)
    (status_ : option OrderStatus) (st : Store) :
  (0 <= skip)%Z -> (0 <= limit)%Z ->
  Z.of_nat (length (get_orders user skip limit status_ st))
  = Z.min limit (Z.max 0 (get_order_count user status_ st - skip)).
Proof.
  intros Hs Hl. rewrite get_orders_eq, length_take, length_drop by done.
  rewrite (Permutation_length (merge_sort_Permutation newer_first _)).
  unfold get_order_count. fold (selected user status_ st). lia.
Qed.

Lemma get_orders_count_witness :
  Z.of_nat (length (get_orders vendor 3 20 None five_orders)) = 2%Z.
Proof.
  rewrite (get_orders_count vendor 3 20 None five_orders) by lia.
  by vm_compute.
Defined.

(** ** Pagination *)

Lemma ceil_div_bound (total size : Z) :
  (1 <= size)%Z -> (0 <= total)%Z ->
  let n := ((total + size - 1) / size)%Z in
  (0 <= n)%Z ∧ (total <= n * size)%Z
  ∧ ((n - 1) * size < total ∨ (n = 0 ∧ total = 0))%Z.
Proof.
  intros Hs Ht n. unfold n.
  pose proof (Z.div_mod (total + size - 1) size ltac:(lia)) as Hdm.
  pose proof (Z.mod_pos_bound (total + size - 1) size ltac:(lia)) as Hmod.
  set (q := ((total + size - 1) / size)%Z) in *.
  set (m := ((total + size - 1) mod size)%Z) in *.
  assert (0 <= q)%Z by (apply Z.div_pos; lia).
  split; [done|]. split; [nia|].
  destruct (decide (total = 0)) as [-> | Hne]; [|left; nia].
  right. split; [|done]. nia.
Qed.

(** X12. The number of pages [PaginatedResponse.create] reports is the
    least that holds [total] items: the pages before the last hold fewer
    than [total], all of them hold at least [total]; an empty listing has
    no page. *)
Theorem pages_bound {T} (its : list T) (total : Z)
    (pagination : PaginationParams.t) :
  PaginationParams.valid pagination ->
  (0 <= total)%Z ->
  let n := PaginatedResponse.pages (PaginatedResponse.create its total pagination) in
  let size := PaginationParams.size pagination in
  (0 <= n)%Z
  ∧ (total <= n * size)%Z
  ∧ ((n - 1) * size < total ∨ (n = 0 ∧ total = 0))%Z.
Proof.
  intros [_ [Hs _]] Ht. by apply ceil_div_bound.
Qed.

(** 41 orders at 20 a page: 3 pages. *)
Lemma pages_bound_witness :
  let n := PaginatedResponse.pages
             (PaginatedResponse.create (@nil nat) 41 (PaginationParams.mk 1 20)) in
  n = 3%Z ∧ (41 <= n * 20)%Z ∧ ((n - 1) * 20 < 41 ∨ (n = 0 ∧ 41 = 0))%Z.
Proof.
  split; [reflexivity|].
  apply (pages_bound (@nil nat) 41 (PaginationParams.mk 1 20));
    [by vm_compute | lia].
Defined.

Lemma concat_pages {A} (l : list A) (n k : nat) :
  concat (map (fun i => take n (drop (i * n) l)) (seq 0 k)) = take (k * n) l.
Proof.
  induction k as [|k IH]; [done|].
  rewrite seq_S, map_app, concat_app, IH. simpl. rewrite app_nil_r.
  rewrite take_take_drop. f_equal. lia.
Qed.

(** X13. Paging through a listing misses nothing and repeats nothing: the
    pages 1 to [pages] of [get_orders], at the offsets [PaginationParams]
    computes and with the page count [PaginatedResponse.create] reports
    for [get_order_count], put end to end, are the whole listing. *)
Theorem pages_cover_listing (user : User) (pagination : PaginationParams.t)
    (status_ : option OrderStatus) (st : Store) :
  PaginationParams.valid pagination ->
  let size := PaginationParams.size pagination in
  let total := get_order_count user status_ st in
  let pages :=
    PaginatedResponse.pages
      (PaginatedResponse.create (@nil (Z * Order)) total pagination) in
  concat (map (fun i : nat =>
                 get_orders user
                   (PaginationParams.offset
                      (PaginationParams.mk (Z.of_nat i + 1) size))
                   size status_ st)
              (seq 0 (Z.to_nat pages)))
  = get_orders user 0 total status_ st.
Proof.
  intros [_ [Hs _]] size total pages.
  assert (0 <= total)%Z as Ht by (unfold total, get_order_count; lia).
  destruct (ceil_div_bound total size Hs Ht) as (Hp & Hup & _).
  change ((total + size - 1) / size)%Z with pages in Hp, Hup.
  set (l := merge_sort newer_first (selected user status_ st)).
  assert (Z.of_nat (List.length l) = total) as Hlen.
  { unfold l, total, get_order_count. fold (selected user status_ st).
    by rewrite (Permutation_length (merge_sort_Permutation newer_first _)). }
  rewrite (get_orders_eq user 0 total) by done. fold l.
  change (Z.to_nat 0) with 0%nat. rewrite drop_0.
  rewrite (take_ge l (Z.to_nat total)) by lia.
  rewrite <- (take_ge l (Z.to_nat pages * Z.to_nat size)) by nia.
  rewrite <- concat_pages. f_equal. apply map_ext. intros i.
  rewrite get_orders_eq by (unfold size in *; lia).
  fold l. unfold PaginationParams.offset. simpl.
  do 2 f_equal. nia.
Qed.

(** Five orders at two a page: three pages, which together list the five. *)
Lemma pages_cover_listing_witness :
  concat (map (fun i : nat =>
                 get_orders vendor
                   (PaginationParams.offset
                      (PaginationParams.mk (Z.of_nat i + 1) 2))
                   2 None five_orders)
              (seq 0 3))
  = get_orders vendor 0 5 None five_orders.
Proof.
  apply (pages_cover_listing vendor (PaginationParams.mk 1 2) None five_orders).
  by vm_compute.
Defined.

(** ** The handlers of the orders routes *)

Arguments get_orders : simpl never.
Arguments get_order_count : simpl never.

Lemma selected_staff user status_ (st : Store) :
  role user ≠ CUSTOMER ->
  selected user status_ st = filter (has_status status_) (map_to_list st).
Proof.
  intros Hr. unfold selected. f_equal.
  induction (map_to_list st) as [|row l IH]; [done|].
  rewrite filter_cons_True by (intros ?; done). by rewrite IH.
Qed.

Lemma from_orm_each_eq (orders : list (Z * Order)) :
  OrderResponse.from_orm_each orders
  = if forallb (fun row => OrderResponse.validate (snd row)) orders
    then Ok orders
    else Raise (ValidationError "OrderResponse").
Proof.
  induction orders as [|[pk o] rest IH]; [done|].
  simpl. unfold OrderResponse.from_orm.
  destruct (OrderResponse.validate o); [|done]. simpl.
  rewrite IH. by destruct (forallb _ rest).
Qed.

(** X14. For an active user: a customer is refused the full listing with
    403 and finds only own orders in an answer of [get_my_orders]; a
    vendor or an admin gets from [get_my_orders] exactly what
    [get_all_orders] answers, the orders of every user, with a total that
    counts every order of the store that passes the status filter.  The
    listing is answered exactly when every order of the page passes the
    validation of the response model; otherwise the handler raises. *)
Theorem listing_scope (pagination : PaginationParams.t)
    (status_filter : option OrderStatus) (user : User) (st : Store) :
  is_active user = true ->
  let my := orders_routes.get_my_orders pagination status_filter user st in
  let all := orders_routes.get_all_orders pagination status_filter user st in
  let page :=
    get_orders user (PaginationParams.offset pagination)
      (PaginationParams.size pagination) status_filter st in
  (role user = CUSTOMER ->
   all = Raise (HTTPException 403 "Insufficient permissions")
   ∧ ∀ resp, my = Ok resp ->
       ∀ pk o, (pk, o) ∈ PaginatedResponse.items resp -> user_id o = id user)
  ∧ (role user ≠ CUSTOMER ->
     my = all
     ∧ ∀ resp, all = Ok resp ->
         PaginatedResponse.items resp = page
         ∧ PaginatedResponse.total resp
           = Z.of_nat (List.length (filter (has_status status_filter)
                                      (map_to_list st))))
  ∧ (is_ok my = true
     ↔ ∀ pk o, (pk, o) ∈ page -> OrderResponse.validate o = true).
Proof.
  intros Hact my all page.
  assert (Hmy : my = if forallb (fun row => OrderResponse.validate (snd row)) page
                     then Ok (PaginatedResponse.create page
                                (get_order_count user status_filter st) pagination)
                     else Raise (ValidationError "OrderResponse")).
  { unfold my, orders_routes.get_my_orders,
      dependencies.get_current_active_user, mbind, result_bind.
    rewrite Hact. simpl. fold page. rewrite from_orm_each_eq.
    by destruct (forallb _ page). }
  assert (Hall : role user ≠ CUSTOMER -> all = my).
  { intros Hr. rewrite Hmy.
    unfold all, orders_routes.get_all_orders,
      dependencies.require_vendor_or_admin,
      dependencies.get_current_active_user, mbind, result_bind.
    rewrite Hact. simpl.
    assert (bool_decide (role user = VENDOR) || bool_decide (role user = ADMIN)
            = true) as -> by (by destruct (role user)).
    simpl. fold page. rewrite from_orm_each_eq.
    by destruct (forallb _ page). }
  assert (Hcust : role user = CUSTOMER ->
                   all = Raise (HTTPException 403 "Insufficient permissions")).
  { intros Hr.
    unfold all, orders_routes.get_all_orders,
      dependencies.require_vendor_or_admin,
      dependencies.get_current_active_user, mbind, result_bind.
    rewrite Hact. simpl. by rewrite Hr. }
  clearbody my all. split; [|split].
  - intros Hr. split; [by apply Hcust|].
    + intros resp Hresp pk o Hin. rewrite Hmy in Hresp.
      destruct (forallb _ page); [|done]. injection Hresp as <-.
      simpl in Hin.
      pose proof (get_orders_sublist user (PaginationParams.offset pagination)
                    (PaginationParams.size pagination) status_filter st) as Hsub.
      assert ((pk, o) ∈ selected user status_filter st) as Hsel
        by (rewrite <- (merge_sort_Permutation newer_first);
            by eapply elem_of_sublist).
      apply selected_elem in Hsel as (_ & Hvis & _). by apply Hvis.
  - intros Hr. split; [by rewrite Hall|].
    intros resp. rewrite (Hall Hr), Hmy.
    destruct (forallb _ page); [|done]. intros [= <-]. split; [done|].
    simpl. unfold get_order_count. fold (selected user status_filter st).
    by rewrite selected_staff.
  - rewrite Hmy. destruct (forallb _ page) eqn:Hf; simpl.
    + split; [|done]. intros _ pk o Hin.
      rewrite forallb_forall in Hf.
      exact (Hf (pk, o) (proj1 (list_elem_of_In _ _) Hin)).
    + split; [done|]. intros Hv.
      assert (forallb (fun row => OrderResponse.validate (snd row)) page = true)
        as Hf'; [|congruence].
      apply forallb_forall. intros [pk o] Hin. simpl.
      apply (Hv pk). by apply list_elem_of_In.
Qed.

(** A vendor's own listing shows the five orders of the store, none of
    which the vendor owns. *)
Lemma listing_scope_witness :
  ∃ resp,
    orders_routes.get_my_orders (PaginationParams.mk 1 20) None vendor
      five_orders = Ok resp
    ∧ orders_routes.get_all_orders (PaginationParams.mk 1 20) None vendor
        five_orders = Ok resp
    ∧ PaginatedResponse.total resp = 5%Z.
Proof.
  destruct (listing_scope (PaginationParams.mk 1 20) None vendor five_orders
              eq_refl) as (_ & Hstaff & _).
  destruct Hstaff as [Hsame Hresp]; [done|].
  eexists. split; [by vm_compute|].
  split; [rewrite <- Hsame; by vm_compute|].
  reflexivity.
Defined.


(** ** The cancel handler *)




(** ** app/utils/timezone.py *)

(** X18. On a datetime from 1946 on, [to_ist] answers in IST, at +05:30,
    and keeps the instant, a naive datetime being read as UTC; the answer
    is again such a datetime, and applying [to_ist] twice changes nothing
    more. *)
Theorem to_ist_keeps_instant (dt : datetime) :
  modern dt ->
  tzinfo (to_ist dt) = Some IST
  ∧ instant (to_ist dt) = instant dt
  ∧ modern (to_ist dt)
  ∧ to_ist (to_ist dt) = to_ist dt.
Proof.
  unfold modern, to_ist, astimezone, replace_tzinfo, instant, utc.
  destruct dt as [w [tz|]]; simpl; intros Hm; repeat split; try lia;
    f_equal; lia.
Qed.

Lemma to_ist_keeps_instant_witness :
  tzinfo (to_ist (mkDatetime t0 None)) = Some IST
  ∧ instant (to_ist (mkDatetime t0 None)) = t0.
Proof.
  destruct (to_ist_keeps_instant (mkDatetime t0 None)) as (Htz & Hi & _).
  - by vm_compute.
  - split; [exact Htz | exact Hi].
Defined.

(** X19. The two conversions read a naive datetime, from 1946 on,
    differently, [ist_to_utc] as an IST reading and [to_ist] as a UTC one:
    the instants they give are 5 h 30 min apart, and [to_ist] after
    [ist_to_utc] gives back the reading it started from, in IST. *)
Theorem naive_conversions (dt : datetime) :
  tzinfo dt = None ->
  modern dt ->
  instant (to_ist dt) - instant (ist_to_utc dt) = IST
  ∧ to_ist (ist_to_utc dt) = mkDatetime (wall dt) (Some IST)
  ∧ wall (to_ist dt) = wall dt + IST.
Proof.
  unfold to_ist, ist_to_utc, astimezone, replace_tzinfo, instant, utc.
  destruct dt as [w [tz|]]; simpl; [done|]. intros _ _.
  repeat split; try lia. f_equal. lia.
Qed.

Lemma naive_conversions_witness :
  to_ist (ist_to_utc (mkDatetime t0 None)) = mkDatetime t0 (Some IST)
  ∧ wall (to_ist (mkDatetime t0 None)) = t0 + IST.
Proof.
  destruct (naive_conversions (mkDatetime t0 None) eq_refl) as (_ & H1 & H2).
  - by vm_compute.
  - split; [exact H1 | exact H2].
Defined.

(** ** The passes, again *)

Lemma flush_promotions_frame now dirty (st st2 : Store) :
  flush_promotions now dirty st = Ok st2 ->
  ∀ pk, st2 !! pk = st !! pk ∨ st2 !! pk = promoted now <$> st !! pk.
Proof.
  revert st. induction dirty as [|k dirty IH]; intros st; simpl.
  - intros [= <-] pk. by left.
  - destruct (st !! k) as [row|] eqn:Hrow; [|done].
    intros Hf pk. fold (promoted now row) in Hf.
    destruct (IH _ Hf pk) as [-> | ->];
      (destruct (decide (pk = k)) as [-> | Hne];
       [rewrite lookup_insert_eq, Hrow; by right
       | rewrite lookup_insert_ne by done; by eauto]).
Qed.

Lemma flush_promotions_exact now dirty (st st2 : Store) :
  NoDup dirty ->
  flush_promotions now dirty st = Ok st2 ->
  ∀ pk, st2 !! pk = if bool_decide (pk ∈ dirty)
                    then promoted now <$> st !! pk else st !! pk.
Proof.
  revert st. induction dirty as [|k dirty IH]; intros st Hnd.
  - intros [= <-] pk. by rewrite bool_decide_eq_false_2 by apply not_elem_of_nil.
  - simpl flush_promotions. apply NoDup_cons in Hnd as [Hk Hnd].
    destruct (st !! k) as [row|] eqn:Hrow; [|done].
    intros Hf pk. rewrite (IH _ Hnd Hf pk).
    destruct (decide (pk = k)) as [-> | Hne].
    + rewrite (bool_decide_eq_false_2 _ Hk), lookup_insert_eq, Hrow.
      by rewrite bool_decide_eq_true_2 by apply list_elem_of_here.
    + rewrite lookup_insert_ne by done.
      case_bool_decide as H1; case_bool_decide as H2; try done.
      * exfalso. apply H2. by apply list_elem_of_further.
      * exfalso. apply H1. by apply elem_of_cons in H2 as [? | ?].
Qed.

Lemma flush_promotions_present now dirty (st st2 : Store) :
  flush_promotions now dirty st = Ok st2 ->
  ∀ pk, pk ∈ dirty -> is_Some (st !! pk).
Proof.
  revert st. induction dirty as [|k dirty IH]; intros st; simpl.
  - intros _ pk Hin. by apply not_elem_of_nil in Hin.
  - destruct (st !! k) as [row|] eqn:Hrow; [|done].
    intros Hf pk [-> | Hin]%elem_of_cons; [by rewrite Hrow|].
    destruct (decide (pk = k)) as [-> | Hne]; [by rewrite Hrow|].
    specialize (IH _ Hf pk Hin). by rewrite lookup_insert_ne in IH.
Qed.

(** The keys the loop assigned to, in the order of the candidates. *)
Lemma candidate_loop_dirty_sublist concurrent double_check now cands
    (st st1 : Store) dirty n dirty' n' :
  candidate_loop concurrent double_check now cands st dirty n
  = (st1, Ok (dirty', n')) ->
  ∃ assigned, dirty' = (dirty ++ assigned)%list
              ∧ assigned `sublist_of` cands.*1.
Proof.
  revert st dirty n. induction cands as [|[k o] rest IH]; intros st dirty n; simpl.
  - intros [= <- <- <-]. exists []. by rewrite app_nil_r.
  - destruct (refresh k (concurrent k st)) as [order|e]; [|done].
    destruct (negb _).
    { intros Hl. destruct (IH _ _ _ Hl) as (a & -> & Hs).
      exists a. split; [done|]. by apply sublist_cons. }
    destruct (localize IST (created_at order)) as [created|e]; [|done].
    destruct (_ && _).
    + intros Hl. destruct (IH _ _ _ Hl) as (a & -> & Hs).
      exists a. split; [done|]. by apply sublist_cons.
    + intros Hl. destruct (IH _ _ _ Hl) as (a & -> & Hs).
      exists (k :: a). split; [by rewrite <- app_assoc|]. by apply sublist_skip.
Qed.

(** X20. A pass writes [status] and [updated_at] and nothing else,
    whatever is committed concurrently: in the store a pass leaves, periodic
    or manual, each row is the row the concurrent transactions left, or
    that row promoted to processing and stamped with the time of the
    pass; no row appears or disappears. *)
Theorem pass_writes_status_only (concurrent : Z -> Store -> Store)
    (clock clock1 : Z) (db_fails : bool) (st : Store) (pk : Z) :
  let now := datetime_now IST clock in
  let pending_orders :=
    query_pending (replace_tzinfo (dt_minus now (minutes 5)) None) st in
  let left_periodic :=
    fst (candidate_loop concurrent true now pending_orders st [] 0) in
  let left_manual :=
    fst (candidate_loop concurrent false (datetime_now IST clock1)
           pending_orders st [] 0) in
  (_process_pending_orders concurrent clock db_fails st !! pk
   = left_periodic !! pk
   ∨ _process_pending_orders concurrent clock db_fails st !! pk
     = promoted (replace_tzinfo now None) <$> left_periodic !! pk)
  ∧ (snd (update_all_pending_orders_now concurrent clock clock1 db_fails st) !! pk
     = left_manual !! pk
     ∨ snd (update_all_pending_orders_now concurrent clock clock1 db_fails st) !! pk
       = promoted (replace_tzinfo (datetime_now IST clock1) None)
         <$> left_manual !! pk).
Proof.
  intros now pending_orders left_periodic left_manual. split.
  - unfold _process_pending_orders, left_periodic.
    fold now. fold pending_orders.
    destruct (candidate_loop concurrent true now pending_orders st [] 0)
      as [st1 [[dirty n]|e]]; simpl; [|by left].
    destruct (0 <? n)%Z; [|by left].
    unfold commit_promotions. destruct db_fails; [by left|].
    destruct (flush_promotions _ _ _) as [st2|e] eqn:Hf; [|by left].
    exact (flush_promotions_frame _ _ _ _ Hf pk).
  - unfold update_all_pending_orders_now, left_manual.
    fold now. fold pending_orders.
    destruct (candidate_loop concurrent false _ pending_orders st [] 0)
      as [st1 [[dirty n]|e]]; simpl; [|by left].
    destruct (0 <? n)%Z; [|by left].
    unfold commit_promotions. destruct db_fails; [by left|].
    destruct (flush_promotions _ _ _) as [st2|e] eqn:Hf; [|by left].
    exact (flush_promotions_frame _ _ _ _ Hf pk).
Qed.

(** X21. The manual trigger is all or nothing, and its count is exact:
    when it raises it has written nothing; when it returns [n], it has
    promoted exactly [n] rows, each of them a row of the store and each
    once, and left every other row as the concurrent transactions left
    it. *)
Theorem manual_trigger_exact (concurrent : Z -> Store -> Store)
    (clock0 clock1 : Z) (db_fails : bool) (st : Store) :
  let now := datetime_now IST clock1 in
  let pending_orders :=
    query_pending
      (replace_tzinfo (dt_minus (datetime_now IST clock0) (minutes 5)) None) st in
  let left := fst (candidate_loop concurrent false now pending_orders st [] 0) in
  let r := update_all_pending_orders_now concurrent clock0 clock1 db_fails st in
  (∀ e, fst r = Raise e -> snd r = left)
  ∧ (∀ n, fst r = Ok n ->
       ∃ dirty, NoDup dirty
         ∧ Z.of_nat (List.length dirty) = n
         ∧ (∀ pk, pk ∈ dirty -> is_Some (left !! pk))
         ∧ ∀ pk, snd r !! pk
                 = if bool_decide (pk ∈ dirty)
                   then promoted (replace_tzinfo now None) <$> left !! pk
                   else left !! pk).
Proof.
  intros now pending_orders left r.
  assert (Hr : r = update_all_pending_orders_now concurrent clock0 clock1
                     db_fails st) by done.
  clearbody r. unfold update_all_pending_orders_now in Hr.
  fold pending_orders in Hr. fold now in Hr. unfold left.
  destruct (candidate_loop concurrent false now pending_orders st [] 0)
    as [st1 [[dirty n]|e]] eqn:Hloop; simpl.
  2:{ subst r. simpl. split; [done|]. by intros n [=]. }
  destruct (candidate_loop_dirty concurrent false now pending_orders st [] 0
              st1 dirty n (query_pending_NoDup _ _) Hloop) as [Hn _].
  destruct (candidate_loop_dirty_sublist _ _ _ _ _ _ _ _ _ _ Hloop)
    as (assigned & Hd & Hsub).
  simpl in Hd, Hn. subst dirty.
  assert (NoDup assigned) as Hnd
    by (eapply sublist_NoDup; [apply (query_pending_NoDup
          (replace_tzinfo (dt_minus (datetime_now IST clock0) (minutes 5)) None)
          st) | done]).
  destruct (Z.ltb_spec 0 n) as [Hpos|Hzero].
  - unfold commit_promotions in Hr. destruct db_fails.
    { subst r. simpl. split; [done|]. by intros ? [=]. }
    destruct (flush_promotions _ _ _) as [st2|e] eqn:Hf.
    + subst r. simpl. split; [by intros ? [=]|].
      intros ? [= <-]. exists assigned. split; [done|]. split; [lia|].
      split; [exact (flush_promotions_present _ _ _ _ Hf)|].
      exact (flush_promotions_exact _ _ _ _ Hnd Hf).
    + subst r. simpl. split; [done|]. by intros ? [=].
  - subst r. simpl. split; [by intros ? [=]|].
    intros ? [= <-]. exists []. split; [constructor|].
    split; [simpl; destruct assigned; simpl in *; lia|].
    split; [intros pk Hin; by apply not_elem_of_nil in Hin|].
    intros pk. by rewrite bool_decide_eq_false_2 by apply not_elem_of_nil.
Qed.

(** Alone, the loop of the periodic pass assigns to the candidates that
    pass its second test. *)
Lemma candidate_loop_quiet_checked now cands (st : Store) dirty n :
  (∀ pk o, (pk, o) ∈ cands ->
     st !! pk = Some o ∧ status o = PENDING ∧ tzinfo (created_at o) = None) ->
  let kept := List.filter (fun row => past_window now (snd row)) cands in
  candidate_loop quiet true now cands st dirty n
  = (st, Ok ((dirty ++ kept.*1)%list, n + Z.of_nat (List.length kept))).
Proof.
  revert dirty n. induction cands as [|[k o] rest IH]; intros dirty n Hc; simpl.
  - by rewrite app_nil_r, Z.add_0_r.
  - destruct (Hc k o) as (Hrow & Hs & Htz); [apply list_elem_of_here|].
    unfold quiet at 1 2. unfold refresh, localize. rewrite Hrow, Htz.
    rewrite (bool_decide_eq_true_2 _ Hs). simpl.
    assert (Hw : past_window now o
                 = negb (dt_diff now (mkDatetime (wall (created_at o)) (Some IST))
                         <=? minutes 5)%Z) by done.
    destruct (_ <=? _)%Z; rewrite Hw; simpl;
      rewrite IH
        by (intros pk' o' ?; apply (Hc pk' o'); by apply list_elem_of_further).
    + done.
    + rewrite <- app_assoc. simpl. do 3 f_equal. lia.
Qed.

Lemma filter_keys_sublist (f : Z * Order -> bool) (l : list (Z * Order)) :
  (List.filter f l).*1 `sublist_of` l.*1.
Proof.
  induction l as [|r l IH]; simpl; [done|].
  destruct (f r); simpl; [by apply sublist_skip | by apply sublist_cons].
Qed.

Lemma past_window_age clock o :
  past_window (datetime_now IST clock) o = (minutes 5 <? order_age clock o)%Z.
Proof.
  unfold past_window, order_age, get_ist_now, datetime_now, dt_diff. simpl.
  destruct (Z.leb_spec (clock + IST - IST - (wall (created_at o) - IST)) (minutes 5));
    destruct (Z.ltb_spec (minutes 5) (clock + IST - wall (created_at o)));
    simpl; try done; lia.
Qed.

(** X22. Alone, and with the commit going through, the periodic pass
    promotes exactly the pending orders created more than five minutes
    before it, stamps them with its own time, and leaves every other row
    as it is; an order exactly five minutes old waits for the next pass. *)
Theorem periodic_pass_alone (clock : Z) (st : Store) :
  (∀ pk o, st !! pk = Some o -> tzinfo (created_at o) = None) ->
  ∀ pk, _process_pending_orders quiet clock false st !! pk
        = (fun o => if bool_decide (status o = PENDING)
                       && (minutes 5 <? order_age clock o)%Z
                    then promoted (replace_tzinfo (get_ist_now clock) None) o
                    else o) <$> st !! pk.
Proof.
  intros Hnaive pk. unfold _process_pending_orders, get_ist_now.
  set (now := datetime_now IST clock).
  set (cutoff := replace_tzinfo (dt_minus now (minutes 5)) None).
  set (now_naive := replace_tzinfo now None).
  rewrite candidate_loop_quiet_checked, Z.add_0_l; simpl.
  2:{ intros k o [Ho Hd]%query_pending_elem.
      apply andb_prop in Hd as [Hs%bool_decide_eq_true _]. eauto. }
  set (kept := List.filter (fun row => past_window now (snd row))
                 (query_pending cutoff st)).
  assert (Hkept : ∀ k, k ∈ kept.*1 <->
            ∃ o, st !! k = Some o ∧ status o = PENDING
                 ∧ (minutes 5 <? order_age clock o)%Z = true).
  { intros k. rewrite list_elem_of_fmap. split.
    - intros ([k' o] & -> & Hin). simpl.
      apply list_elem_of_In, filter_In in Hin as [Hin Hw]. simpl in Hw.
      apply list_elem_of_In, query_pending_elem in Hin as [Ho Hd].
      apply andb_prop in Hd as [Hs%bool_decide_eq_true _].
      exists o. unfold now in Hw. by rewrite past_window_age in Hw.
    - intros (o & Ho & Hs & Hage). exists (k, o). split; [done|].
      apply list_elem_of_In, filter_In. split.
      + apply list_elem_of_In, query_pending_elem. split; [done|].
        apply andb_true_intro. split; [by apply bool_decide_eq_true|].
        apply Z.ltb_lt in Hage. apply Z.leb_le.
        unfold order_age, get_ist_now, cutoff, now, datetime_now in *.
        simpl in *. lia.
      + simpl. unfold now. by rewrite past_window_age. }
  assert (Hnd : NoDup kept.*1).
  { eapply sublist_NoDup; [apply (query_pending_NoDup cutoff st)|].
    apply filter_keys_sublist. }
  assert (Hrest : pk ∉ kept.*1 ->
            st !! pk = (fun o => if bool_decide (status o = PENDING)
                                    && (minutes 5 <? order_age clock o)%Z
                                 then promoted now_naive o else o) <$> st !! pk).
  { intros Hout. destruct (st !! pk) as [o|] eqn:Ho; [|done]. simpl.
    destruct (bool_decide (status o = PENDING)
              && (minutes 5 <? order_age clock o)%Z) eqn:Hb; [|done].
    exfalso. apply Hout, Hkept. exists o.
    apply andb_prop in Hb as [Hs%bool_decide_eq_true Hage]. done. }
  destruct (Z.ltb_spec 0 (Z.of_nat (List.length kept))) as [Hpos|Hzero]; simpl.
  - destruct (flush_promotions_all now_naive kept.*1 st Hnd)
      as (st2 & Hf & Hst2).
    { intros k (o & Ho & _)%Hkept. by rewrite Ho. }
    unfold commit_promotions. rewrite Hf. rewrite Hst2.
    case_bool_decide as Hin; [|by apply Hrest].
    apply Hkept in Hin as (o & Ho & Hs & Hage). rewrite Ho. simpl.
    by rewrite (bool_decide_eq_true_2 _ Hs), Hage.
  - apply Hrest. destruct kept; [apply not_elem_of_nil | simpl in Hzero; lia].
Qed.

Lemma periodic_pass_alone_witness :
  let clock := at_age (minutes 5) in
  _process_pending_orders quiet clock false pending_store !! 1
  = (fun o => if bool_decide (status o = PENDING)
                 && (minutes 5 <? order_age clock o)%Z
              then promoted (replace_tzinfo (get_ist_now clock) None) o
              else o) <$> pending_store !! 1.
Proof.
  intros clock. apply (periodic_pass_alone clock pending_store).
  intros pk o Ho.
  destruct (decide (pk = 1)) as [-> | Hne].
  - vm_compute in Ho. by simplify_eq.
  - unfold pending_store in Ho. by rewrite lookup_singleton_ne in Ho.
Defined.
